(** * Stream / Device / Mixer (device.cpp): a shallow embedding

    The program keeps [Stream] objects on the free store and hands them
    around as [shared_ptr<Stream>]; a [Mixer] holds two vectors of such
    pointers.  The embedding keeps that shape: a store maps addresses to
    streams, a mixer holds lists of addresses, and every member function is
    a computation over the pair (mixer object, store) that may return,
    throw a [std::string], or run into undefined behaviour.

    [double] is IEEE 754 binary64, modelled by the Standard Library's
    [spec_float] with [prec = 53] and [emax = 1024], rounding to nearest
    even.  [int] is 32 bits wide and [size_t] 64 bits. *)

From Stdlib Require Import ZArith String Bool Lia DecimalString.
From Stdlib Require Import DecimalZ.
From Stdlib Require Import Floats.SpecFloat.
From stdpp Require Import base option list gmap.

Local Open Scope Z_scope.

(** ** binary64 *)

Module Double.

Definition prec : Z := 53.
Definition emax : Z := 1024.

Definition double : Type := spec_float.

(** A [spec_float] is a binary64 datum when its mantissa is canonical and
    its exponent is in range. *)
Definition valid (x : double) : bool := valid_binary prec emax x.

Definition add (x y : double) : double := SFadd prec emax x y.
Definition div (x y : double) : double := SFdiv prec emax x y.

(** Literal [0] converted to [double]. *)
Definition zero : double := S754_zero false.

(** Integral-to-floating conversion of a [size_t] (round to nearest even). *)
Definition of_size (n : Z) : double := binary_normalize prec emax n 0 false.

(** [1.0], what [of_size 1] evaluates to. *)
Definition one : double := S754_finite false 4503599627370496 (-52).

(** [x == y] of C++. *)
Definition eqb (x y : double) : bool := SFeqb x y.

Definition is_nan (x : double) : bool :=
  match x with S754_nan => true | _ => false end.

(** The two doubles are the same number: they compare equal with [==], or
    both are NaN. *)
Definition same_number (x y : double) : bool :=
  eqb x y || (is_nan x && is_nan y).

(** The literals [10.0], [5.0], [-5.0], [20.0] of the callers. *)
Definition of_Z (n : Z) : double := binary_normalize prec emax n 0 false.

End Double.

Import Double.

(** ** Stream *)

(** [shared_ptr<Stream>]: the address of the managed object.  Two pointers
    are the same stream exactly when the addresses are equal. *)
Definition ptr : Type := positive.
Bind Scope positive_scope with ptr.

Record Stream : Type := mkStream {
  mass_flow : double;  (* double mass_flow; *)
  name : string        (* string name;      *)
}.

Definition setName (s : string) (self : Stream) : Stream :=
  {| mass_flow := mass_flow self; name := s |}.

Definition getName (self : Stream) : string := name self.

Definition setMassFlow (m : double) (self : Stream) : Stream :=
  {| mass_flow := m; name := name self |}.

Definition getMassFlow (self : Stream) : double := mass_flow self.

(** [std::to_string(int)]. *)
Definition to_string (s : Z) : string := NilEmpty.string_of_int (Z.to_int s).

(** [Stream(int s)]: only the name is set; [mass_flow] keeps whatever the
    storage held, which the constructor therefore takes as an argument. *)
Definition Stream_new (indeterminate : double) (s : Z) : Stream :=
  setName ("s" ++ to_string s) {| mass_flow := indeterminate; name := "" |}.

(** ** Device and Mixer *)

Definition MIXER_OUTPUTS : Z := 1.

(** The [Mixer] object: the two vectors inherited from [Device] and its own
    [_inputs_count].  ([Device::inputAmount] and [Device::outputAmount] are
    never initialised and never read by [Mixer], whose [addInput] and
    [addOutput] hide the ones of [Device].) *)
Record Mixer : Type := mkMixer {
  inputs : list ptr;       (* vector<shared_ptr<Stream>> inputs;  *)
  outputs : list ptr;      (* vector<shared_ptr<Stream>> outputs; *)
  _inputs_count : Z        (* int _inputs_count;                  *)
}.

(** [int] is 32 bits wide, [size_t] 64 bits. *)
Definition is_int (z : Z) : Prop := - 2 ^ 31 <= z < 2 ^ 31.

(** Conversion of an [int] operand to [size_t], as the usual arithmetic
    conversions do for [inputs.size() == _inputs_count]. *)
Definition to_size_t (z : Z) : Z := z mod 2 ^ 64.

(** [vector::size()]. *)
Definition size {A : Type} (v : list A) : Z := Z.of_nat (length v).

(** [vector::push_back]. *)
Definition push_back {A : Type} (x : A) (v : list A) : list A := v ++ [x].

(** [Mixer(int inputs_count)]. *)
Definition Mixer_new (inputs_count : Z) : Mixer :=
  {| inputs := []; outputs := []; _inputs_count := inputs_count |}.

(** ** Computations *)

(** The state a member function of a mixer runs in: the mixer object and
    the streams on the free store. *)
Record state : Type := mkState {
  this : Mixer;
  store : gmap ptr Stream
}.

(** How a call ends: it returns, it throws a [std::string], or it has
    dereferenced a pointer that manages no object (undefined behaviour). *)
Inductive outcome (A : Type) : Type :=
  | Normal (a : A)
  | Throw (what : string)
  | Undefined.
Arguments Normal {A} a.
Arguments Throw {A} what.
Arguments Undefined {A}.

(** State is threaded through; what was written before a [throw] stays
    written. *)
Definition M (A : Type) : Type := state -> outcome A * state.

Definition ret {A : Type} (a : A) : M A := fun st => (Normal a, st).

Definition bind {A B : Type} (m : M A) (k : A -> M B) : M B :=
  fun st =>
    match m st with
    | (Normal a, st') => k a st'
    | (Throw what, st') => (Throw what, st')
    | (Undefined, st') => (Undefined, st')
    end.

Definition throw {A : Type} (what : string) : M A := fun st => (Throw what, st).

#[global] Instance M_ret : MRet M := @ret.
#[global] Instance M_bind : MBind M := fun A B k m => bind m k.

(** Reading a member of [*this]. *)
Definition member {A : Type} (f : Mixer -> A) : M A :=
  fun st => (Normal (f (this st)), st).

Definition inputs_push_back (s : ptr) : M unit :=
  fun st =>
    (Normal tt,
     {| this := {| inputs := push_back s (inputs (this st));
                   outputs := outputs (this st);
                   _inputs_count := _inputs_count (this st) |};
        store := store st |}).

Definition outputs_push_back (s : ptr) : M unit :=
  fun st =>
    (Normal tt,
     {| this := {| inputs := inputs (this st);
                   outputs := push_back s (outputs (this st));
                   _inputs_count := _inputs_count (this st) |};
        store := store st |}).

(** [p -> getMassFlow()]. *)
Definition call_getMassFlow (p : ptr) : M double :=
  fun st =>
    match store st !! p with
    | Some s => (Normal (getMassFlow s), st)
    | None => (Undefined, st)
    end.

(** [p -> setMassFlow(m)]. *)
Definition call_setMassFlow (p : ptr) (m : double) : M unit :=
  fun st =>
    match store st !! p with
    | Some _ => (Normal tt,
                 {| this := this st; store := alter (setMassFlow m) p (store st) |})
    | None => (Undefined, st)
    end.

(** Range-based [for] over a vector, with the locals the body updates
    passed along as an accumulator. *)
Fixpoint for_fold {A B : Type} (v : list A) (acc : B) (body : B -> A -> M B) : M B :=
  match v with
  | [] => ret acc
  | x :: v' => acc' ← body acc x; for_fold v' acc' body
  end.

Fixpoint for_each {A : Type} (v : list A) (body : A -> M unit) : M unit :=
  match v with
  | [] => ret tt
  | x :: v' => body x;; for_each v' body
  end.

(** The exceptions, under the names the specification gives them. *)
Inductive port : Type := Input | Output.

Definition CapacityExceeded (kind : port) : string :=
  match kind with
  | Input => "Too much inputs"
  | Output => "Too much outputs"
  end.

Definition MissingOutput : string := "Should set outputs before update".

(** [void Mixer::addInput(shared_ptr<Stream> s)]. *)
Definition addInput (s : ptr) : M unit :=
  ins ← member inputs;
  n ← member _inputs_count;
  if size ins =? to_size_t n then throw "Too much inputs"
  else inputs_push_back s.

(** [void Mixer::addOutput(shared_ptr<Stream> s)]. *)
Definition addOutput (s : ptr) : M unit :=
  outs ← member outputs;
  if size outs =? to_size_t MIXER_OUTPUTS then throw "Too much outputs"
  else outputs_push_back s.

(** [void Mixer::updateOutputs()]. *)
Definition updateOutputs : M unit :=
  ins ← member inputs;
  sum_mass_flow ←
    for_fold ins zero (fun sum_mass_flow input_stream =>
      m ← call_getMassFlow input_stream;
      ret (add sum_mass_flow m));
  outs ← member outputs;
  if bool_decide (outs = []) then throw "Should set outputs before update"
  else
    let output_mass := div sum_mass_flow (of_size (size outs)) in
    for_each outs (fun output_stream =>
      call_setMassFlow output_stream output_mass).

(** ** Callers *)

(** What a caller does with a mixer and its streams, one call at a time. *)
Inductive call : Type :=
  | AddInput (s : ptr)
  | AddOutput (s : ptr)
  | UpdateOutputs
  | SetMassFlow (s : ptr) (m : double).

Definition exec (c : call) : M unit :=
  match c with
  | AddInput s => addInput s
  | AddOutput s => addOutput s
  | UpdateOutputs => updateOutputs
  | SetMassFlow s m => call_setMassFlow s m
  end.

(** The states a caller sees after each call of a sequence, the first one
    included.  An exception is caught by the caller, who goes on; after
    undefined behaviour nothing more is observed. *)
Fixpoint trace (cs : list call) (st : state) : list state :=
  st ::
  match cs with
  | [] => []
  | c :: cs' =>
      match exec c st with
      | (Undefined, _) => []
      | (_, st') => trace cs' st'
      end
  end.

(** The state after the whole sequence. *)
Fixpoint run (cs : list call) (st : state) : state :=
  match cs with
  | [] => st
  | c :: cs' =>
      match exec c st with
      | (Undefined, st') => st'
      | (_, st') => run cs' st'
      end
  end.

(** ** Vocabulary of the specification *)

(** The mass flow of the stream [p] points to, if it points to one. *)
Definition flow (st : state) (p : ptr) : option double :=
  getMassFlow <$> store st !! p.

(** The mass flows of the streams a vector of pointers refers to, in order;
    [None] if one of the pointers manages no stream. *)
Fixpoint flows (sigma : gmap ptr Stream) (v : list ptr) : option (list double) :=
  match v with
  | [] => Some []
  | p :: v' =>
      match sigma !! p with
      | Some s => cons (getMassFlow s) <$> flows sigma v'
      | None => None
      end
  end.

(** The sum the loop of [updateOutputs] accumulates, from [0], left to right. *)
Definition sum_flows (fs : list double) : double := fold_left add fs zero.

(** Every pointer of the vector manages a stream. *)
Definition live (sigma : gmap ptr Stream) (v : list ptr) : Prop :=
  Forall (fun p => is_Some (sigma !! p)) v.

(** The bounds on the two vectors. *)
Definition capacity_inv (m : Mixer) : Prop :=
  size (inputs m) <= _inputs_count m /\ size (outputs m) <= MIXER_OUTPUTS.

(** The store after [p -> setMassFlow(m)] for every [p] of [v], in order. *)
Definition assign_all (m : double) (v : list ptr) (sigma : gmap ptr Stream)
  : gmap ptr Stream :=
  foldl (fun s p => alter (setMassFlow m) p s) sigma v.

(** ** The scenarios of the test functions *)

(** Three streams as [Test1] creates them ([new Stream(++streamcounter)]),
    with mass flows not yet set. *)
Definition three_streams : gmap ptr Stream :=
  {[ 1%positive := Stream_new S754_nan 1;
     2%positive := Stream_new S754_nan 2;
     3%positive := Stream_new S754_nan 3 ]}.

Definition four_streams : gmap ptr Stream :=
  <[ 4%positive := Stream_new S754_nan 4 ]> three_streams.

(** [Mixer d1(n)], not yet connected. *)
Definition fresh_mixer (n : Z) (sigma : gmap ptr Stream) : state :=
  {| this := Mixer_new n; store := sigma |}.

(** [Test1] and [Test6] up to the first [updateOutputs()]. *)
Definition Test1_setup : list call :=
  [ SetMassFlow 1 (of_Z 10); SetMassFlow 2 (of_Z 5);
    AddInput 1; AddInput 2; AddOutput 3 ].

(** [Test4]: a negative flow. *)
Definition Test4_setup : list call :=
  [ SetMassFlow 1 (of_Z 10); SetMassFlow 2 (of_Z (-5));
    AddInput 1; AddInput 2; AddOutput 3 ].

(** [Test5]: an output and no input. *)
Definition Test5_setup : list call := [ AddOutput 1 ].

(** [Test7]: two inputs and no output. *)
Definition Test7_setup : list call :=
  [ SetMassFlow 1 (of_Z 5); SetMassFlow 2 (of_Z 5); AddInput 1; AddInput 2 ].

(** The states the test functions reach before the call they check. *)
Definition Test1_state : state := run Test1_setup (fresh_mixer 2 three_streams).
Definition Test3_state : state := run Test1_setup (fresh_mixer 2 four_streams).
Definition Test4_state : state := run Test4_setup (fresh_mixer 2 three_streams).
Definition Test5_state : state := run Test5_setup (fresh_mixer 2 three_streams).
Definition Test7_state : state := run Test7_setup (fresh_mixer 2 three_streams).

(** [Test6] after its first [updateOutputs()]. *)
Definition Test6_state : state := run [UpdateOutputs] Test1_state.

(** ** What the checks of the test functions compute with *)

Module Cmath.

(** [x - y] on doubles. *)
Definition sub (x y : double) : double := SFsub prec emax x y.

(** [std::abs(double)]. *)
Definition abs (x : double) : double := SFabs x.

(** [x < y] and [x > y] on doubles. *)
Definition ltb (x y : double) : bool := SFltb x y.
Definition gtb (x y : double) : bool := SFltb y x.

(** [float] is IEEE 754 binary32. *)
Definition float_prec : Z := 24.
Definition float_emax : Z := 128.

(** Conversion of a [double] to [float] (round to nearest even), as the
    initialisation of a [float] from a [double] literal does. *)
Definition to_float (x : double) : spec_float :=
  match x with
  | S754_finite s m e => binary_round float_prec float_emax s m e
  | _ => x
  end.

(** Promotion of a [float] operand to [double]; it loses nothing. *)
Definition of_float (x : spec_float) : double :=
  match x with
  | S754_finite s m e => binary_round prec emax s m e
  | _ => x
  end.

(** The literal [0.01]: the double nearest to 1/100. *)
Definition literal_0_01 : double := div (of_Z 1) (of_Z 100).

End Cmath.

(** [const float POSSIBLE_ERROR = 0.01;] *)
Definition POSSIBLE_ERROR : spec_float := Cmath.to_float Cmath.literal_0_01.

(** [abs(x) - 15 < POSSIBLE_ERROR], the condition of [Test1]. *)
Definition Test1_check (x : double) : bool :=
  Cmath.ltb (Cmath.sub (Cmath.abs x) (of_Z 15)) (Cmath.of_float POSSIBLE_ERROR).

(** [abs(x - 5) < POSSIBLE_ERROR], the condition of [Test4]. *)
Definition Test4_check (x : double) : bool :=
  Cmath.ltb (Cmath.abs (Cmath.sub x (of_Z 5))) (Cmath.of_float POSSIBLE_ERROR).

(** [abs(x) == 0], the condition of [Test5]. *)
Definition Test5_check (x : double) : bool :=
  eqb (Cmath.abs x) (of_Z 0).

(** [abs(x - 15) > POSSIBLE_ERROR] and [abs(x - 25) < POSSIBLE_ERROR], the
    two conditions of [Test6]. *)
Definition Test6_first_check (x : double) : bool :=
  Cmath.gtb (Cmath.abs (Cmath.sub x (of_Z 15))) (Cmath.of_float POSSIBLE_ERROR).

Definition Test6_second_check (x : double) : bool :=
  Cmath.ltb (Cmath.abs (Cmath.sub x (of_Z 25))) (Cmath.of_float POSSIBLE_ERROR).

(** ** The member functions of the base class *)

Module Device.

(** A [Device] subobject. *)
Record t : Type := mk {
  inputs : list ptr;      (* vector<shared_ptr<Stream>> inputs;  *)
  outputs : list ptr;     (* vector<shared_ptr<Stream>> outputs; *)
  inputAmount : Z;        (* int inputAmount;                     *)
  outputAmount : Z        (* int outputAmount;                    *)
}.

(** How a call ends: it returns, or it throws a [const char*] that points
    to the given literal.  Either way the object is left as given. *)
Inductive result : Type :=
  | Returned (self : t)
  | Thrown (what : string) (self : t).

Definition object (r : result) : t :=
  match r with Returned d => d | Thrown _ d => d end.

(** [void Device::addInput(shared_ptr<Stream> s)]. *)
Definition addInput (s : ptr) (self : t) : result :=
  if size (inputs self) <? to_size_t (inputAmount self)
  then Returned {| inputs := push_back s (inputs self);
                   outputs := outputs self;
                   inputAmount := inputAmount self;
                   outputAmount := outputAmount self |}
  else Thrown "INPUT STREAM LIMIT!" self.

(** [void Device::addOutput(shared_ptr<Stream> s)]. *)
Definition addOutput (s : ptr) (self : t) : result :=
  if size (outputs self) <? to_size_t (outputAmount self)
  then Returned {| inputs := inputs self;
                   outputs := push_back s (outputs self);
                   inputAmount := inputAmount self;
                   outputAmount := outputAmount self |}
  else Thrown "OUTPUT STREAM LIMIT!" self.

(** A caller that attaches the streams of [v] one after the other, catching
    what is thrown. *)
Definition addInputs (v : list ptr) (self : t) : t :=
  foldl (fun d s => object (addInput s d)) self v.

Definition addOutputs (v : list ptr) (self : t) : t :=
  foldl (fun d s => object (addOutput s d)) self v.

End Device.

(** ** More about callers *)

(** The stream a call names. *)
Definition call_ptr (c : call) : option ptr :=
  match c with
  | AddInput s => Some s
  | AddOutput s => Some s
  | UpdateOutputs => None
  | SetMassFlow s _ => Some s
  end.

(** How the calls of a sequence end, one after the other; nothing follows
    undefined behaviour. *)
Fixpoint outcomes (cs : list call) (st : state) : list (outcome unit) :=
  match cs with
  | [] => []
  | c :: cs' =>
      match exec c st with
      | (Undefined, _) => [Undefined]
      | (r, st') => r :: outcomes cs' st'
      end
  end.

(** ** The test functions *)

(** What the test functions run in: the global [streamcounter], the local
    mixer [d1] of the function that is running, the streams on the free
    store, and the lines written to [cout]. *)
Record process : Type := mkProcess {
  streamcounter : Z;
  d1 : Mixer;
  heap : gmap ptr Stream;
  cout : list string
}.

Definition P (A : Type) : Type := process -> outcome A * process.

Definition P_ret {A : Type} (a : A) : P A := fun pr => (Normal a, pr).

Definition P_bind_def {A B : Type} (m : P A) (k : A -> P B) : P B :=
  fun pr =>
    match m pr with
    | (Normal a, pr') => k a pr'
    | (Throw what, pr') => (Throw what, pr')
    | (Undefined, pr') => (Undefined, pr')
    end.

#[global] Instance P_mret : MRet P := @P_ret.
#[global] Instance P_mbind : MBind P := fun A B k m => P_bind_def m k.

(** A member function of [d1], or of a stream, called from a test. *)
Definition on_d1 {A : Type} (m : M A) : P A :=
  fun pr =>
    match m {| this := d1 pr; store := heap pr |} with
    | (r, st') =>
        (r, {| streamcounter := streamcounter pr;
               d1 := this st';
               heap := store st';
               cout := cout pr |})
    end.

(** [streamcounter = z;] *)
Definition streamcounter_assign (z : Z) : P unit :=
  fun pr =>
    (Normal tt,
     {| streamcounter := z; d1 := d1 pr; heap := heap pr; cout := cout pr |}).

(** [++streamcounter]; incrementing [INT_MAX] is undefined. *)
Definition streamcounter_increment : P Z :=
  fun pr =>
    if streamcounter pr + 1 <? 2 ^ 31
    then (Normal (streamcounter pr + 1),
          {| streamcounter := streamcounter pr + 1;
             d1 := d1 pr; heap := heap pr; cout := cout pr |})
    else (Undefined, pr).

(** [Mixer d1(n);] *)
Definition d1_construct (n : Z) : P unit :=
  fun pr =>
    (Normal tt,
     {| streamcounter := streamcounter pr; d1 := Mixer_new n;
        heap := heap pr; cout := cout pr |}).

(** [cout << line << endl;] *)
Definition cout_line (line : string) : P unit :=
  fun pr =>
    (Normal tt,
     {| streamcounter := streamcounter pr; d1 := d1 pr; heap := heap pr;
        cout := cout pr ++ [line] |}).

(** [try { body } catch (const string ex)]: what was caught, if anything;
    every exception of the mixer is a [std::string]. *)
Definition try_catch_string (body : P unit) : P (option string) :=
  fun pr =>
    match body pr with
    | (Normal _, pr') => (Normal None, pr')
    | (Throw what, pr') => (Normal (Some what), pr')
    | (Undefined, pr') => (Undefined, pr')
    end.

(** The end of a test function that returns: its shared pointers and its
    mixer go out of scope, which frees the streams they managed, and the
    caller has its own [d1] again. *)
Definition leave (caller : Mixer) (locals : list ptr) : P unit :=
  fun pr =>
    (Normal tt,
     {| streamcounter := streamcounter pr;
        d1 := caller;
        heap := foldr delete (heap pr) locals;
        cout := cout pr |}).

(** The [d1] of the caller, to be given back by [leave]. *)
Definition caller_d1 : P Mixer := fun pr => (Normal (d1 pr), pr).

Section Tests.

(** What the storage at an address holds when a stream is constructed
    there: [mass_flow] stays indeterminate until it is set. *)
Variable indeterminate : ptr -> double.

(** [new Stream(s)], at an address that manages no stream yet. *)
Definition construct_at_fresh (s : Z) : P ptr :=
  fun pr =>
    let p := fresh (dom (heap pr)) in
    (Normal p,
     {| streamcounter := streamcounter pr; d1 := d1 pr;
        heap := <[p := Stream_new (indeterminate p) s]> (heap pr);
        cout := cout pr |}).

(** [shared_ptr<Stream> s(new Stream(++streamcounter));] *)
Definition new_Stream : P ptr :=
  s ← streamcounter_increment;
  construct_at_fresh s.

(** [void Test1()]. *)
Definition Test1 : P unit :=
  caller ← caller_d1;
  streamcounter_assign 0;;
  d1_construct 2;;
  s1 ← new_Stream;
  s2 ← new_Stream;
  s3 ← new_Stream;
  on_d1 (call_setMassFlow s1 (of_Z 10));;
  on_d1 (call_setMassFlow s2 (of_Z 5));;
  on_d1 (addInput s1);;
  on_d1 (addInput s2);;
  on_d1 (addOutput s3);;
  on_d1 updateOutputs;;
  m ← on_d1 (call_getMassFlow s3);
  (if Test1_check m then cout_line "Test 1 passed"
   else cout_line "Test 1 failed");;
  leave caller [s1; s2; s3].

(** [void Test2()]. *)
Definition Test2 : P unit :=
  caller ← caller_d1;
  streamcounter_assign 0;;
  d1_construct 2;;
  s1 ← new_Stream;
  s2 ← new_Stream;
  s3 ← new_Stream;
  s4 ← new_Stream;
  on_d1 (call_setMassFlow s1 (of_Z 10));;
  on_d1 (call_setMassFlow s2 (of_Z 5));;
  on_d1 (addInput s1);;
  on_d1 (addInput s2);;
  on_d1 (addOutput s3);;
  caught ← try_catch_string (on_d1 (addOutput s4));
  (match caught with
   | Some ex =>
       if String.eqb ex "Too much outputs" then cout_line "Test 2 passed"
       else cout_line "Test 2 failed"
   | None => cout_line "Test 2 failed"
   end);;
  leave caller [s1; s2; s3; s4].

(** [void Test3()]. *)
Definition Test3 : P unit :=
  caller ← caller_d1;
  streamcounter_assign 0;;
  d1_construct 2;;
  s1 ← new_Stream;
  s2 ← new_Stream;
  s3 ← new_Stream;
  s4 ← new_Stream;
  on_d1 (call_setMassFlow s1 (of_Z 10));;
  on_d1 (call_setMassFlow s2 (of_Z 5));;
  on_d1 (addInput s1);;
  on_d1 (addInput s2);;
  on_d1 (addOutput s3);;
  caught ← try_catch_string (on_d1 (addInput s4));
  (match caught with
   | Some ex =>
       if String.eqb ex "Too much inputs" then cout_line "Test 3 passed"
       else cout_line "Test 3 failed"
   | None => cout_line "Test 3 failed"
   end);;
  leave caller [s1; s2; s3; s4].

(** [void Test4()]; the lines it writes say [Test 5]. *)
Definition Test4 : P unit :=
  caller ← caller_d1;
  streamcounter_assign 0;;
  d1_construct 2;;
  s1 ← new_Stream;
  s2 ← new_Stream;
  s3 ← new_Stream;
  on_d1 (call_setMassFlow s1 (of_Z 10));;
  on_d1 (call_setMassFlow s2 (of_Z (-5)));;
  on_d1 (addInput s1);;
  on_d1 (addInput s2);;
  on_d1 (addOutput s3);;
  on_d1 updateOutputs;;
  m ← on_d1 (call_getMassFlow s3);
  (if Test4_check m then cout_line "Test 5 passed"
   else cout_line "Test 5 failed");;
  leave caller [s1; s2; s3].

(** [void Test5()]; the lines it writes say [Test 4]. *)
Definition Test5 : P unit :=
  caller ← caller_d1;
  streamcounter_assign 0;;
  d1_construct 2;;
  s1 ← new_Stream;
  on_d1 (addOutput s1);;
  on_d1 updateOutputs;;
  m ← on_d1 (call_getMassFlow s1);
  (if Test5_check m then cout_line "Test 4 passed"
   else cout_line "Test 4 failed");;
  leave caller [s1].

(** [void Test6()]. *)
Definition Test6 : P unit :=
  caller ← caller_d1;
  streamcounter_assign 0;;
  d1_construct 2;;
  s1 ← new_Stream;
  s2 ← new_Stream;
  s3 ← new_Stream;
  on_d1 (call_setMassFlow s1 (of_Z 10));;
  on_d1 (call_setMassFlow s2 (of_Z 5));;
  on_d1 (addInput s1);;
  on_d1 (addInput s2);;
  on_d1 (addOutput s3);;
  on_d1 updateOutputs;;
  m ← on_d1 (call_getMassFlow s3);
  if Test6_first_check m then
    cout_line "Test 6 failed";;
    leave caller [s1; s2; s3]
  else
    on_d1 (call_setMassFlow s1 (of_Z 20));;
    on_d1 updateOutputs;;
    m' ← on_d1 (call_getMassFlow s3);
    (if Test6_second_check m' then cout_line "Test 6 passed"
     else cout_line "Test 6 failed");;
    leave caller [s1; s2; s3].

(** [void Test7()]. *)
Definition Test7 : P unit :=
  caller ← caller_d1;
  streamcounter_assign 0;;
  d1_construct 2;;
  s1 ← new_Stream;
  s2 ← new_Stream;
  on_d1 (call_setMassFlow s1 (of_Z 5));;
  on_d1 (call_setMassFlow s2 (of_Z 5));;
  on_d1 (addInput s1);;
  on_d1 (addInput s2);;
  caught ← try_catch_string (on_d1 updateOutputs);
  (match caught with
   | Some ex =>
       if String.eqb ex "Should set outputs before update"
       then cout_line "Test 7 passed"
       else cout_line "Test 7 failed"
   | None => cout_line "Test 7 failed"
   end);;
  leave caller [s1; s2].

(** [void tests()]. *)
Definition tests : P unit :=
  Test1;; Test2;; Test3;; Test4;; Test5;; Test6;; Test7.

End Tests.

(** * Facts about binary64 arithmetic *)

Section DoubleFacts.

Lemma digits2_pos_size p : digits2_pos p = Pos.size p.
Proof. induction p; simpl; congruence. Qed.

Lemma Zdigits2_log2 m : 0 < m -> Zdigits2 m = Z.log2 m + 1.
Proof.
  destruct m as [|p|p]; try lia. intros _. simpl.
  rewrite digits2_pos_size. destruct p; simpl; lia.
Qed.

Lemma Zdigits2_nonneg m : 0 <= Zdigits2 m.
Proof. destruct m; simpl; lia. Qed.

Lemma Zdigits2_pos m : 0 < m -> 0 < Zdigits2 m.
Proof. destruct m; simpl; lia. Qed.

Lemma Zdigits2_mono a b : 0 <= a <= b -> Zdigits2 a <= Zdigits2 b.
Proof.
  intros [Ha Hab]. destruct (Z.eq_dec a 0) as [->|Hne].
  - apply Zdigits2_nonneg.
  - rewrite !Zdigits2_log2 by lia. pose proof (Z.log2_le_mono a b Hab). lia.
Qed.

Lemma Zdigits2_mul_pow2 m n :
  0 < m -> 0 <= n -> Zdigits2 (m * 2 ^ n) = Zdigits2 m + n.
Proof.
  intros Hm Hn. assert (0 < 2 ^ n) by (apply Z.pow_pos_nonneg; lia).
  rewrite !Zdigits2_log2 by nia. rewrite Z.log2_mul_pow2 by lia. lia.
Qed.

Lemma Zdigits2_div_pow2 m n :
  0 <= n -> 0 < m / 2 ^ n -> Zdigits2 (m / 2 ^ n) = Zdigits2 m - n.
Proof.
  intros Hn Hq. assert (H2 : 0 < 2 ^ n) by (apply Z.pow_pos_nonneg; lia).
  assert (Hm : 2 ^ n <= m).
  { destruct (Z_lt_le_dec m (2 ^ n)) as [Hlt|]; [|assumption].
    destruct (Z_lt_le_dec m 0) as [Hneg|Hpos].
    - pose proof (Z.div_lt_upper_bound m (2 ^ n) 0 H2). lia.
    - rewrite Z.div_small in Hq by lia. lia. }
  rewrite !Zdigits2_log2 by lia.
  rewrite <- Z.shiftr_div_pow2 by lia. rewrite Z.log2_shiftr by lia.
  assert (n <= Z.log2 m) by (apply Z.log2_le_pow2; lia). lia.
Qed.

Lemma Zdigits2_small m n :
  0 <= n -> 0 < m -> m / 2 ^ n = 0 -> Zdigits2 m <= n.
Proof.
  intros Hn Hm Hq. assert (H2 : 0 < 2 ^ n) by (apply Z.pow_pos_nonneg; lia).
  rewrite Zdigits2_log2 by lia.
  assert (m < 2 ^ n).
  { destruct (Z_lt_le_dec m (2 ^ n)); [assumption|].
    pose proof (Z.div_le_lower_bound m (2 ^ n) 1 H2). lia. }
  assert (Z.log2 m < n) by (apply Z.log2_lt_pow2; lia). lia.
Qed.

Lemma iter_xO_pow2 m d : Zpos (Pos.iter xO m d) = Zpos m * 2 ^ Zpos d.
Proof.
  induction d as [|d IH] using Pos.peano_ind.
  - simpl. lia.
  - rewrite Pos.iter_succ, Pos2Z.inj_succ, Z.pow_succ_r by lia.
    rewrite Pos2Z.inj_xO, IH. lia.
Qed.

Lemma shr_1_m mrs : 0 <= shr_m mrs -> shr_m (shr_1 mrs) = shr_m mrs / 2.
Proof.
  destruct mrs as [m r s]. cbn [shr_m]. intros Hm.
  destruct m as [|[p|p|]|p]; cbn [shr_1 shr_m]; try reflexivity; try lia.
  - apply Z.div_unique with 1; lia.
  - apply Z.div_unique with 0; lia.
Qed.

Lemma div_pow2_pow2 m a b :
  0 <= a -> 0 <= b -> m / 2 ^ a / 2 ^ b = m / 2 ^ (a + b).
Proof.
  intros Ha Hb.
  assert (0 < 2 ^ a) by (apply Z.pow_pos_nonneg; lia).
  assert (0 < 2 ^ b) by (apply Z.pow_pos_nonneg; lia).
  rewrite Z.div_div by lia. now rewrite Z.pow_add_r.
Qed.

Lemma div_pow2_nonneg m n : 0 <= m -> 0 <= n -> 0 <= m / 2 ^ n.
Proof. intros. apply Z.div_pos; [|apply Z.pow_pos_nonneg]; lia. Qed.

Lemma iter_shr_1_m p : forall mrs,
  0 <= shr_m mrs ->
  shr_m (SpecFloat.iter_pos shr_1 p mrs) = shr_m mrs / 2 ^ Zpos p.
Proof.
  induction p as [p IH|p IH|]; intros mrs Hm; simpl SpecFloat.iter_pos.
  - assert (H1 : 0 <= shr_m (shr_1 mrs)).
    { rewrite shr_1_m by assumption. apply (div_pow2_nonneg _ 1); lia. }
    assert (H2 : 0 <= shr_m (SpecFloat.iter_pos shr_1 p (shr_1 mrs))).
    { rewrite IH by assumption. apply div_pow2_nonneg; lia. }
    rewrite IH, IH, shr_1_m by assumption.
    change (shr_m mrs / 2) with (shr_m mrs / 2 ^ 1).
    rewrite !div_pow2_pow2 by lia. f_equal. f_equal. lia.
  - assert (H2 : 0 <= shr_m (SpecFloat.iter_pos shr_1 p mrs)).
    { rewrite IH by assumption. apply div_pow2_nonneg; lia. }
    rewrite IH, IH by assumption.
    rewrite !div_pow2_pow2 by lia. f_equal. f_equal. lia.
  - rewrite shr_1_m by assumption. reflexivity.
Qed.

(** What [shr_fexp] does to a non-negative mantissa: it drops the
    [n = fexp (digits m + e) - e] low bits when [n] is positive. *)
Lemma shr_fexp_m m e l :
  0 <= m ->
  let n := Z.max 0 (fexp prec emax (Zdigits2 m + e) - e) in
  shr_m (fst (shr_fexp prec emax m e l)) = m / 2 ^ n /\
  snd (shr_fexp prec emax m e l) = e + n.
Proof.
  intros Hm n. unfold shr_fexp, shr. subst n.
  assert (Hrec : shr_m (shr_record_of_loc m l) = m)
    by (destruct l as [|[]]; reflexivity).
  destruct (fexp prec emax (Zdigits2 m + e) - e) as [|p|p] eqn:E; cbn [fst snd].
  - rewrite Hrec. change (Z.max 0 0) with 0. rewrite Z.div_1_r. lia.
  - rewrite iter_shr_1_m by lia. rewrite Hrec.
    replace (Z.max 0 (Z.pos p)) with (Z.pos p) by lia. lia.
  - rewrite Hrec. replace (Z.max 0 (Z.neg p)) with 0 by lia.
    rewrite Z.div_1_r. lia.
Qed.

Lemma round_nearest_even_cases m l :
  round_nearest_even m l = m \/ round_nearest_even m l = m + 1.
Proof. destruct l as [|[]]; simpl; try destruct (Z.even m); auto. Qed.

Lemma Zdigits2_1 : Zdigits2 1 = 1.
Proof. reflexivity. Qed.

(** Rounding always lands on a binary64 datum, whatever is rounded. *)
Lemma binary_round_aux_valid sx mx ex lx :
  0 <= mx -> ex <= fexp prec emax (Zdigits2 mx + ex) ->
  valid (binary_round_aux prec emax sx mx ex lx) = true.
Proof.
  intros Hm Hex. unfold binary_round_aux.
  pose proof (shr_fexp_m mx ex lx Hm) as [Hm' He'].
  destruct (shr_fexp prec emax mx ex lx) as [mrs' e']. cbn [fst snd] in Hm', He'.
  set (m' := shr_m mrs') in *.
  set (m1 := round_nearest_even m' (loc_of_shr_record mrs')).
  assert (Hm'0 : 0 <= m') by (rewrite Hm'; apply div_pow2_nonneg; lia).
  assert (Hm1 : m1 = m' \/ m1 = m' + 1) by apply round_nearest_even_cases.
  assert (Hm10 : 0 <= m1) by lia.
  pose proof (shr_fexp_m m1 e' loc_Exact Hm10) as [Hm'' He''].
  destruct (shr_fexp prec emax m1 e' loc_Exact) as [mrs'' e''].
  cbn [fst snd] in Hm'', He''.
  destruct (shr_m mrs'') as [|m|m] eqn:E3; try reflexivity.
  destruct (e'' <=? emax - prec) eqn:Eb; try reflexivity.
  unfold valid, valid_binary, bounded, canonical_mantissa.
  rewrite Eb, andb_true_r. apply Z.eqb_eq.
  change (Z.pos (digits2_pos m)) with (Zdigits2 (Z.pos m)).
  set (n1 := fexp prec emax (Zdigits2 mx + ex) - ex) in *.
  set (n2 := fexp prec emax (Zdigits2 m1 + e') - e') in *.
  assert (Hn1 : Z.max 0 n1 = n1) by lia. rewrite Hn1 in *.
  assert (Hkey : 0 <= n2).
  { assert (Hm1pos : 0 < m1).
    { destruct (Z.eq_dec m1 0) as [E0|]; [|lia].
      rewrite E0, Zdiv_0_l in Hm''. lia. }
    subst n2. destruct (Z.eq_dec m' 0) as [E0|Hne].
    - assert (m1 = 1) by lia. subst m1. replace (round_nearest_even _ _) with 1.
      rewrite Zdigits2_1.
      assert (e' <= -1074); [|unfold fexp, emin, prec, emax; lia].
      destruct (Z.eq_dec mx 0) as [Emx|Hmx].
      + subst mx. change (Zdigits2 0) with 0 in *. subst n1.
        unfold fexp, emin, prec, emax in *. lia.
      + assert (Zdigits2 mx <= n1).
        { apply Zdigits2_small; lia. }
        subst n1. unfold fexp, emin, prec, emax in *. lia.
    - assert (Hd : Zdigits2 m' = Zdigits2 mx - n1).
      { rewrite Hm'. apply Zdigits2_div_pow2; lia. }
      assert (Hmono : Zdigits2 m' <= Zdigits2 m1) by (apply Zdigits2_mono; lia).
      subst n1. unfold fexp, emin, prec, emax in *. lia. }
  assert (Hn2 : Z.max 0 n2 = n2) by lia. rewrite Hn2 in *.
  assert (Hd2 : Zdigits2 (Z.pos m) = Zdigits2 m1 - n2).
  { rewrite Hm''. apply Zdigits2_div_pow2; lia. }
  rewrite Hd2. subst n2. unfold fexp, emin, prec, emax in *. lia.
Qed.

Lemma binary_round_valid sx mx ex :
  valid (binary_round prec emax sx mx ex) = true.
Proof.
  unfold binary_round, shl_align.
  destruct (fexp prec emax (Z.pos (digits2_pos mx) + ex) - ex) as [|d|d] eqn:E;
    apply binary_round_aux_valid; try lia.
  - change (Zdigits2 (Z.pos mx)) with (Z.pos (digits2_pos mx)). lia.
  - change (Zdigits2 (Z.pos mx)) with (Z.pos (digits2_pos mx)). lia.
  - rewrite iter_xO_pow2, Zdigits2_mul_pow2 by lia.
    change (Zdigits2 (Z.pos mx)) with (Z.pos (digits2_pos mx)).
    replace (Z.pos (digits2_pos mx) + Z.pos d +
             fexp prec emax (Z.pos (digits2_pos mx) + ex))
      with (Z.pos (digits2_pos mx) + ex) by lia.
    lia.
Qed.

Lemma binary_normalize_valid m e szero :
  valid (binary_normalize prec emax m e szero) = true.
Proof. destruct m; simpl; auto using binary_round_valid. Qed.

(** binary64 data are closed under addition. *)
Lemma add_valid x y :
  valid x = true -> valid y = true -> valid (add x y) = true.
Proof.
  intros Hx Hy. unfold add.
  destruct x as [sx|sx| |sx mx ex], y as [sy|sy| |sy my ey];
    try (destruct sx, sy); try assumption; try reflexivity;
    apply binary_normalize_valid.
Qed.

Lemma of_size_1 : of_size 1 = one.
Proof. reflexivity. Qed.

Lemma bounded_inv m e :
  bounded prec emax m e = true ->
  fexp prec emax (Zdigits2 (Z.pos m) + e) = e /\ e <= 971.
Proof.
  unfold bounded, canonical_mantissa. intros H.
  apply andb_true_iff in H as [H1 H2].
  apply Z.eqb_eq in H1. apply Z.leb_le in H2.
  unfold emax, prec in H2. split; [exact H1 | lia].
Qed.

(** Rounding an exactly representable mantissa returns it. *)
Lemma binary_round_aux_exact sx m e :
  bounded prec emax m e = true ->
  binary_round_aux prec emax sx (Z.pos m) e loc_Exact = S754_finite sx m e.
Proof.
  intros H. destruct (bounded_inv _ _ H) as [Hc He].
  unfold binary_round_aux, shr_fexp.
  cbn [shr_record_of_loc].
  replace (fexp prec emax (Zdigits2 (Z.pos m) + e) - e) with 0 by lia.
  cbn [shr shr_m loc_of_shr_record round_nearest_even shr_record_of_loc].
  replace (fexp prec emax (Zdigits2 (Z.pos m) + e) - e) with 0 by lia.
  cbn [shr shr_m].
  replace (e <=? emax - prec) with true; [reflexivity|].
  symmetry. apply Z.leb_le. unfold emax, prec. lia.
Qed.

(** The same when the mantissa carries one spare low zero bit. *)
Lemma binary_round_aux_exact_double sx m e :
  bounded prec emax m e = true ->
  binary_round_aux prec emax sx (Z.pos m~0) (e - 1) loc_Exact = S754_finite sx m e.
Proof.
  intros H. destruct (bounded_inv _ _ H) as [Hc He].
  unfold binary_round_aux, shr_fexp.
  cbn [shr_record_of_loc].
  assert (Hd : Zdigits2 (Z.pos m~0) = Zdigits2 (Z.pos m) + 1).
  { cbn [Zdigits2 digits2_pos]. lia. }
  replace (fexp prec emax (Zdigits2 (Z.pos m~0) + (e - 1)) - (e - 1)) with 1.
  2:{ rewrite Hd. replace (Zdigits2 (Z.pos m) + 1 + (e - 1))
        with (Zdigits2 (Z.pos m) + e) by lia. lia. }
  cbn [shr SpecFloat.iter_pos shr_1 shr_m loc_of_shr_record round_nearest_even orb].
  replace (e - 1 + 1) with e by lia.
  replace (fexp prec emax (Zdigits2 (Z.pos m) + e) - e) with 0 by lia.
  cbn [shr shr_record_of_loc shr_m].
  replace (e <=? emax - prec) with true; [reflexivity|].
  symmetry. apply Z.leb_le. unfold emax, prec. lia.
Qed.

Lemma div_eucl_shiftl m s :
  0 <= s - 52 ->
  Z.div_eucl (Z.shiftl (Z.pos m) s) 4503599627370496
  = (Z.pos m * 2 ^ (s - 52), 0).
Proof.
  intros Hs.
  assert (E : Z.shiftl (Z.pos m) s = Z.pos m * 2 ^ (s - 52) * 4503599627370496).
  { rewrite Z.shiftl_mul_pow2 by lia.
    replace s with (s - 52 + 52) at 1 by lia.
    rewrite Z.pow_add_r by lia. change (2 ^ 52) with 4503599627370496. lia. }
  pose proof (Z.div_mod (Z.shiftl (Z.pos m) s) 4503599627370496 ltac:(lia)) as Hdm.
  unfold Z.div, Z.modulo in Hdm.
  pose proof (Z.div_mul (Z.pos m * 2 ^ (s - 52)) 4503599627370496 ltac:(lia)) as Hq.
  pose proof (Z.mod_mul (Z.pos m * 2 ^ (s - 52)) 4503599627370496 ltac:(lia)) as Hr.
  rewrite <- E in Hq, Hr. unfold Z.div in Hq. unfold Z.modulo in Hr.
  destruct (Z.div_eucl (Z.shiftl (Z.pos m) s) 4503599627370496) as [q r].
  cbn [fst snd] in *. congruence.
Qed.

(** Dividing a binary64 datum by [1.0] returns it unchanged. *)
Lemma div_one x : valid x = true -> div x one = x.
Proof.
  destruct x as [s|s| |s m e]; intros Hv; unfold div, one.
  - destruct s; reflexivity.
  - destruct s; reflexivity.
  - reflexivity.
  - cbn [valid valid_binary] in Hv. unfold valid in Hv. cbn [valid_binary] in Hv.
    destruct (bounded_inv _ _ Hv) as [Hc He].
    cbn [SFdiv]. unfold SFdiv_core_binary.
    change (Zdigits2 4503599627370496) with 53.
    assert (Hsx : xorb s false = s) by (destruct s; reflexivity). rewrite Hsx.
    unfold fexp, emin, prec, emax in Hc.
    pose proof (Zdigits2_pos (Z.pos m) ltac:(lia)) as Hdpos.
    destruct (Z.eq_dec e (-1074)) as [Emin|Hnmin].
    + (* lowest binade: the quotient keeps the exponent *)
      replace (Z.min (fexp prec emax (Zdigits2 (Z.pos m) + e - (53 + -52)))
                     (e - -52)) with e
        by (unfold fexp, emin, prec, emax; lia).
      replace (e - -52 - e) with 52 by lia.
      rewrite div_eucl_shiftl by lia. change (2 ^ (52 - 52)) with 1.
      rewrite Z.mul_1_r. cbn [new_location Z.even new_location_even Z.eqb].
      now apply binary_round_aux_exact.
    + (* above it the quotient has one more bit and one less in the exponent *)
      replace (Z.min (fexp prec emax (Zdigits2 (Z.pos m) + e - (53 + -52)))
                     (e - -52)) with (e - 1)
        by (unfold fexp, emin, prec, emax; lia).
      replace (e - -52 - (e - 1)) with 53 by lia.
      rewrite div_eucl_shiftl by lia. change (2 ^ (53 - 52)) with 2.
      replace (Z.pos m * 2) with (Z.pos m~0) by lia.
      cbn [new_location Z.even new_location_even Z.eqb].
      now apply binary_round_aux_exact_double.
Qed.


(** [x == x] holds for everything but NaN, so a double is the same number
    as itself. *)
Lemma same_number_refl x : same_number x x = true.
Proof.
  unfold same_number, eqb, SFeqb.
  destruct x as [s|s| |s m e]; try destruct s; simpl; try reflexivity;
    rewrite Z.compare_refl, Pos.compare_cont_refl; reflexivity.
Qed.

(** Starting the sum from [0.0] changes nothing but the sign of a zero. *)
Lemma add_zero_add a b :
  add (add zero a) b = add a b \/
  (a = S754_zero true /\ b = S754_zero true /\
   add (add zero a) b = S754_zero false /\ add a b = S754_zero true).
Proof.
  destruct a as [[]|s| |s m e]; try (left; reflexivity);
    destruct b as [[]|t| |t n f]; try (left; reflexivity).
  right. repeat split.
Qed.

Lemma add_zero_same_number a b :
  same_number (add (add zero a) b) (add a b) = true.
Proof.
  destruct (add_zero_add a b) as [->|(_ & _ & -> & ->)].
  - apply same_number_refl.
  - reflexivity.
Qed.

Lemma sum_flows_valid fs :
  Forall (fun f => valid f = true) fs -> valid (sum_flows fs) = true.
Proof.
  unfold sum_flows. generalize zero (eq_refl : valid zero = true).
  induction fs as [|f fs IH]; intros acc Hacc Hfs; simpl.
  - exact Hacc.
  - inversion Hfs; subst. apply IH; [apply add_valid|]; assumption.
Qed.

End DoubleFacts.

(** * Facts about the member functions *)

Section MixerFacts.

Implicit Types (st : state) (sigma : gmap ptr Stream) (v : list ptr) (p : ptr).

Lemma state_eta st : {| this := this st; store := store st |} = st.
Proof. destruct st; reflexivity. Qed.

Lemma live_flows sigma v : live sigma v -> exists fs, flows sigma v = Some fs.
Proof.
  induction 1 as [|p v [s Hs] _ [fs IH]]; simpl.
  - eauto.
  - rewrite Hs, IH. simpl. eauto.
Qed.

Lemma flows_live sigma v fs : flows sigma v = Some fs -> live sigma v.
Proof.
  revert fs. induction v as [|p v IH]; intros fs H; simpl in H.
  - constructor.
  - destruct (sigma !! p) as [s|] eqn:Hs; [|discriminate].
    destruct (flows sigma v) as [fs'|]; [|discriminate].
    constructor; [exists s; assumption | now apply (IH fs')].
Qed.

(** The flows of a vector depend only on the flows of its streams. *)
Lemma flows_ext sigma sigma' v :
  (forall p, p ∈ v -> getMassFlow <$> sigma' !! p = getMassFlow <$> sigma !! p) ->
  flows sigma' v = flows sigma v.
Proof.
  induction v as [|p v IH]; intros H; simpl; [reflexivity|].
  pose proof (H p ltac:(left)) as Hp.
  rewrite IH by (intros q Hq; apply H; now right).
  destruct (sigma' !! p), (sigma !! p); simpl in Hp; congruence.
Qed.

(** The first loop of [updateOutputs]. *)
Lemma sum_loop_spec v : forall acc st,
  for_fold v acc (fun sum_mass_flow input_stream =>
    m ← call_getMassFlow input_stream; ret (add sum_mass_flow m)) st
  = match flows (store st) v with
    | Some fs => (Normal (fold_left add fs acc), st)
    | None => (Undefined, st)
    end.
Proof.
  induction v as [|p v IH]; intros acc st; simpl; [reflexivity|].
  unfold mbind, M_bind, bind, call_getMassFlow.
  destruct (store st !! p) as [s|]; [|reflexivity].
  unfold ret at 1. rewrite IH.
  destruct (flows (store st) v); reflexivity.
Qed.

Lemma assign_all_cons m p v sigma :
  assign_all m (p :: v) sigma = assign_all m v (alter (setMassFlow m) p sigma).
Proof. reflexivity. Qed.

Lemma live_alter f p sigma v : live sigma v -> live (alter f p sigma) v.
Proof.
  unfold live. intros H. eapply Forall_impl; [exact H|].
  intros q [s Hs]. simpl.
  rewrite lookup_alter. case_decide; subst; rewrite Hs; simpl; eauto.
Qed.

(** The second loop of [updateOutputs]. *)
Lemma write_loop_spec m v : forall st,
  live (store st) v ->
  for_each v (fun output_stream => call_setMassFlow output_stream m) st
  = (Normal tt, {| this := this st; store := assign_all m v (store st) |}).
Proof.
  induction v as [|p v IH]; intros st Hl; simpl.
  - unfold mret, M_ret, ret. now rewrite state_eta.
  - inversion Hl as [|? ? [s Hs] Hl']; subst.
    unfold mbind, M_bind, bind, call_setMassFlow. rewrite Hs.
    rewrite IH by (apply live_alter; assumption). reflexivity.
Qed.

(** It writes the streams of the vector and nothing else. *)
Lemma assign_all_lookup m v : forall sigma p,
  assign_all m v sigma !! p
  = if decide (p ∈ v) then setMassFlow m <$> sigma !! p else sigma !! p.
Proof.
  induction v as [|q v IH]; intros sigma p.
  - rewrite decide_False by (intros H; inversion H). reflexivity.
  - rewrite assign_all_cons, IH, lookup_alter.
    destruct (decide (q = p)) as [->|Hne].
    + rewrite (decide_True (P := p ∈ p :: v)) by left.
      destruct (decide (p ∈ v)); [|reflexivity].
      destruct (sigma !! p); reflexivity.
    + destruct (decide (p ∈ v)) as [Hin|Hnin].
      * rewrite decide_True by (now right). reflexivity.
      * rewrite decide_False; [reflexivity|].
        intros Hin. inversion Hin; subst; congruence.
Qed.

(** [updateOutputs] as a function of the state it is called in. *)
Lemma updateOutputs_returns st fs :
  flows (store st) (inputs (this st)) = Some fs ->
  outputs (this st) <> [] ->
  live (store st) (outputs (this st)) ->
  updateOutputs st
  = (Normal tt,
     {| this := this st;
        store := assign_all (div (sum_flows fs) (of_size (size (outputs (this st)))))
                            (outputs (this st)) (store st) |}).
Proof.
  intros Hfs Hne Hl. unfold updateOutputs, mbind, M_bind, bind, member.
  rewrite sum_loop_spec, Hfs.
  rewrite bool_decide_eq_false_2 by assumption.
  now rewrite write_loop_spec.
Qed.

Lemma updateOutputs_throws st :
  live (store st) (inputs (this st)) ->
  outputs (this st) = [] ->
  updateOutputs st = (Throw MissingOutput, st).
Proof.
  intros Hl He. destruct (live_flows _ _ Hl) as [fs Hfs].
  unfold updateOutputs, mbind, M_bind, bind, member.
  rewrite sum_loop_spec, Hfs, He. reflexivity.
Qed.

(** An [int] that equals a vector size, or exceeds one, is its own
    conversion to [size_t]. *)
Lemma to_size_t_nonneg n : is_int n -> 0 <= n -> to_size_t n = n.
Proof.
  unfold is_int, to_size_t. intros Hn H0. apply Z.mod_small.
  change (2 ^ 31) with 2147483648 in Hn.
  change (2 ^ 64) with 18446744073709551616. lia.
Qed.

Lemma addInput_full s st :
  is_int (_inputs_count (this st)) ->
  size (inputs (this st)) = _inputs_count (this st) ->
  addInput s st = (Throw (CapacityExceeded Input), st).
Proof.
  intros Hint Hsz. unfold addInput, mbind, M_bind, bind, member.
  rewrite to_size_t_nonneg by first [assumption | unfold size in *; lia].
  rewrite (proj2 (Z.eqb_eq _ _) Hsz). reflexivity.
Qed.

Lemma addInput_room s st :
  is_int (_inputs_count (this st)) ->
  size (inputs (this st)) < _inputs_count (this st) ->
  addInput s st
  = (Normal tt,
     {| this := {| inputs := inputs (this st) ++ [s];
                   outputs := outputs (this st);
                   _inputs_count := _inputs_count (this st) |};
        store := store st |}).
Proof.
  intros Hint Hsz. unfold addInput, mbind, M_bind, bind, member.
  rewrite to_size_t_nonneg by first [assumption | unfold size in *; lia].
  rewrite (proj2 (Z.eqb_neq _ _)) by lia. reflexivity.
Qed.

Lemma addOutput_full s st :
  size (outputs (this st)) = 1 ->
  addOutput s st = (Throw (CapacityExceeded Output), st).
Proof.
  intros Hsz. unfold addOutput, mbind, M_bind, bind, member.
  change (to_size_t MIXER_OUTPUTS) with 1.
  rewrite (proj2 (Z.eqb_eq _ _) Hsz). reflexivity.
Qed.

Lemma addOutput_room s st :
  outputs (this st) = [] ->
  addOutput s st
  = (Normal tt,
     {| this := {| inputs := inputs (this st);
                   outputs := [s];
                   _inputs_count := _inputs_count (this st) |};
        store := store st |}).
Proof.
  intros He. unfold addOutput, mbind, M_bind, bind, member, outputs_push_back.
  rewrite He. change (size (@nil ptr) =? to_size_t MIXER_OUTPUTS) with false.
  cbv beta iota. rewrite He. reflexivity.
Qed.

Lemma live_alter_inv f p sigma v : live (alter f p sigma) v -> live sigma v.
Proof.
  unfold live. intros H. eapply Forall_impl; [exact H|].
  intros q [s Hs]. simpl in *. rewrite lookup_alter in Hs.
  case_decide; subst; [|eauto].
  destruct (sigma !! q); [eauto | discriminate].
Qed.

Lemma live_assign_all m v' : forall sigma v,
  live sigma v -> live (assign_all m v' sigma) v.
Proof.
  induction v' as [|q v' IH]; intros sigma v H; [exact H|].
  rewrite assign_all_cons. apply IH, live_alter, H.
Qed.

Lemma write_loop_inv m v : forall st st',
  for_each v (fun output_stream => call_setMassFlow output_stream m) st
  = (Normal tt, st') ->
  live (store st) v.
Proof.
  induction v as [|p v IH]; intros st st' H; [constructor|].
  simpl in H. unfold mbind, M_bind, bind, call_setMassFlow in H.
  destruct (store st !! p) as [s|] eqn:Hs; [|discriminate].
  apply IH in H. cbn [store] in H. apply live_alter_inv in H.
  constructor; [exists s; assumption | exact H].
Qed.

(** A call of [updateOutputs] that returns has read every input, found an
    output, and written the quotient to every output. *)
Lemma updateOutputs_inv st st' :
  updateOutputs st = (Normal tt, st') ->
  exists fs,
    flows (store st) (inputs (this st)) = Some fs /\
    outputs (this st) <> [] /\
    live (store st) (outputs (this st)) /\
    st' = {| this := this st;
             store := assign_all
                        (div (sum_flows fs) (of_size (size (outputs (this st)))))
                        (outputs (this st)) (store st) |}.
Proof.
  intros H. pose proof H as H0.
  unfold updateOutputs, mbind, M_bind, bind, member in H.
  rewrite sum_loop_spec in H.
  destruct (flows (store st) (inputs (this st))) as [fs|] eqn:Hfs; [|discriminate].
  destruct (bool_decide (outputs (this st) = [])) eqn:Hb; [discriminate|].
  apply bool_decide_eq_false_1 in Hb.
  pose proof (write_loop_inv _ _ _ _ H) as Hl.
  exists fs. repeat split; try assumption.
  rewrite (updateOutputs_returns st fs Hfs Hb Hl) in H0. congruence.
Qed.

(** No call changes [_inputs_count], and no call but [addInput] and
    [addOutput] changes the vectors. *)
Lemma sum_loop_state v acc st :
  snd (for_fold v acc (fun sum_mass_flow input_stream =>
         m ← call_getMassFlow input_stream; ret (add sum_mass_flow m)) st) = st.
Proof. rewrite sum_loop_spec. destruct (flows (store st) v); reflexivity. Qed.

Lemma write_loop_this m v : forall st,
  this (snd (for_each v (fun output_stream => call_setMassFlow output_stream m) st))
  = this st.
Proof.
  induction v as [|p v IH]; intros st; [reflexivity|].
  simpl. unfold mbind, M_bind, bind, call_setMassFlow.
  destruct (store st !! p); [|reflexivity]. now rewrite IH.
Qed.

Lemma updateOutputs_this st : this (snd (updateOutputs st)) = this st.
Proof.
  unfold updateOutputs, mbind, M_bind, bind, member.
  rewrite sum_loop_spec.
  destruct (flows (store st) (inputs (this st))); [|reflexivity].
  destruct (bool_decide (outputs (this st) = [])); [reflexivity|].
  apply write_loop_this.
Qed.

Lemma call_setMassFlow_this p m st : this (snd (call_setMassFlow p m st)) = this st.
Proof. unfold call_setMassFlow. destruct (store st !! p); reflexivity. Qed.

(** One call keeps the bounds, when the capacity is not negative. *)
Lemma exec_capacity_inv c st :
  is_int (_inputs_count (this st)) ->
  capacity_inv (this st) ->
  capacity_inv (this (snd (exec c st))) /\
  _inputs_count (this (snd (exec c st))) = _inputs_count (this st).
Proof.
  intros Hint [Hi Ho]. destruct c as [s|s| |s m]; cbn [exec].
  - assert (H0 : 0 <= _inputs_count (this st)) by (unfold size in Hi; lia).
    destruct (Z.eq_dec (size (inputs (this st))) (_inputs_count (this st))) as [E|E].
    + rewrite addInput_full by assumption. cbn [snd]. now repeat split.
    + rewrite addInput_room by (try assumption; lia). cbn [snd this].
      unfold capacity_inv. cbn [inputs outputs _inputs_count].
      unfold size in *. rewrite length_app. cbn [length]. repeat split; lia.
  - destruct (outputs (this st)) as [|o [|o' outs]] eqn:Eo.
    + rewrite addOutput_room by assumption. cbn [snd this].
      unfold capacity_inv. cbn [inputs outputs _inputs_count].
      unfold MIXER_OUTPUTS, size in *. cbn [length]. repeat split; lia.
    + rewrite addOutput_full by (rewrite Eo; reflexivity). cbn [snd].
      unfold capacity_inv. rewrite Eo. now repeat split.
    + unfold MIXER_OUTPUTS, size in Ho. cbn [length] in Ho. lia.
  - rewrite updateOutputs_this. now repeat split.
  - rewrite call_setMassFlow_this. now repeat split.
Qed.

Lemma trace_capacity_inv cs : forall st,
  is_int (_inputs_count (this st)) ->
  capacity_inv (this st) ->
  Forall (fun st' => capacity_inv (this st')) (trace cs st).
Proof.
  induction cs as [|c cs IH]; intros st Hint Hinv; cbn [trace].
  - constructor; [assumption | constructor].
  - constructor; [assumption|].
    destruct (exec_capacity_inv c st Hint Hinv) as [Hinv' Hn].
    destruct (exec c st) as [[| |] st']; cbn [snd] in *;
      try constructor; apply IH; congruence.
Qed.

(** The flows of the inputs after [p -> setMassFlow(m)]. *)
Lemma flows_alter m p sigma v : forall fs,
  flows sigma v = Some fs ->
  flows (alter (setMassFlow m) p sigma) v
  = Some (zip_with (fun q f => if decide (q = p) then m else f) v fs).
Proof.
  induction v as [|q v IH]; intros fs H; simpl in *.
  - now inversion H.
  - destruct (sigma !! q) as [s|] eqn:Hs; [|discriminate].
    destruct (flows sigma v) as [fs'|] eqn:Hfs; [|discriminate].
    inversion H; subst. rewrite lookup_alter, (IH fs' eq_refl).
    destruct (decide (p = q)) as [->|Hne].
    + rewrite Hs, decide_True by reflexivity. reflexivity.
    + rewrite Hs, decide_False by congruence. reflexivity.
Qed.

Lemma flows_elem sigma v fs p :
  flows sigma v = Some fs -> p ∈ v -> is_Some (sigma !! p).
Proof.
  intros H Hp. apply flows_live in H. unfold live in H.
  rewrite Forall_forall in H. now apply H.
Qed.

End MixerFacts.

(** * The properties of the specification *)

(** C9.  [setMassFlow(v)] stores any [v] whatsoever (negative, infinite or
    NaN alike: there is no check) and [getMassFlow()] then returns exactly
    [v]; the name is untouched.  Through a pointer that manages a stream
    neither call throws, and the second returns [v] without changing
    anything. *)
Theorem setMassFlow_then_getMassFlow (self : Stream) (v : double) :
  getMassFlow (setMassFlow v self) = v /\
  getName (setMassFlow v self) = getName self /\
  forall (st : state) (p : ptr),
    store st !! p = Some self ->
    exists st',
      call_setMassFlow p v st = (Normal tt, st') /\
      store st' !! p = Some (setMassFlow v self) /\
      call_getMassFlow p st' = (Normal v, st').
Proof.
  repeat split. intros st p Hp.
  unfold call_setMassFlow, call_getMassFlow. rewrite Hp.
  eexists. split; [reflexivity|]. cbn [store].
  rewrite lookup_alter_eq, Hp. split; reflexivity.
Qed.

(** C1.  A mixer with two inputs carrying [a] and [b] and one output:
    [updateOutputs()] returns and leaves in the output stream the number
    [a + b], with no rounding beyond that of the addition itself.  The
    double stored is [(0 + a) + b]; it is the very double [a + b] unless
    [a] and [b] are both [-0.0], where it is [+0.0]. *)
Theorem mixer_sums_two_inputs (st : state) (i1 i2 o : ptr) (a b : double) :
  inputs (this st) = [i1; i2] ->
  outputs (this st) = [o] ->
  flow st i1 = Some a ->
  flow st i2 = Some b ->
  is_Some (store st !! o) ->
  valid a = true ->
  valid b = true ->
  exists st',
    updateOutputs st = (Normal tt, st') /\
    flow st' o = Some (add (add zero a) b) /\
    same_number (add (add zero a) b) (add a b) = true /\
    (a <> S754_zero true \/ b <> S754_zero true ->
     add (add zero a) b = add a b).
Proof.
  intros Hin Hout Ha Hb [so Ho] Va Vb. unfold flow in Ha, Hb.
  destruct (store st !! i1) as [s1|] eqn:H1; [|discriminate].
  destruct (store st !! i2) as [s2|] eqn:H2; [|discriminate].
  simpl in Ha, Hb. injection Ha as Ha. injection Hb as Hb.
  assert (Hfs : flows (store st) (inputs (this st)) = Some [a; b]).
  { rewrite Hin. simpl. rewrite H1, H2. simpl. now rewrite Ha, Hb. }
  assert (Hl : live (store st) (outputs (this st))).
  { rewrite Hout. repeat constructor. now exists so. }
  eexists. split; [|split; [|split]].
  - apply (updateOutputs_returns st [a; b] Hfs); [now rewrite Hout | exact Hl].
  - unfold flow. cbn [store]. rewrite assign_all_lookup, Hout.
    rewrite decide_True by left. rewrite Ho.
    cbn [fmap option_fmap option_map setMassFlow getMassFlow mass_flow].
    f_equal. change (of_size (size [o])) with one.
    unfold sum_flows. cbn [fold_left].
    apply div_one. repeat apply add_valid; first [assumption | reflexivity].
  - apply add_zero_same_number.
  - intros Hnz. destruct (add_zero_add a b) as [E|(Ea & Eb & _)]; [exact E|].
    destruct Hnz as [Hnz|Hnz]; contradiction.
Qed.

(** C2.  With no output attached, [updateOutputs()] throws the
    missing-output exception and the state after the call is the state
    before it: no stream was written. *)
Theorem mixer_without_output_throws (st : state) :
  outputs (this st) = [] ->
  live (store st) (inputs (this st)) ->
  updateOutputs st = (Throw MissingOutput, st).
Proof. intros He Hl. now apply updateOutputs_throws. Qed.

(** C3.  A mixer of capacity [N]: with [N] inputs attached [addInput]
    throws and changes nothing; with fewer it appends the stream. *)
Theorem addInput_respects_capacity (st : state) (s : ptr) :
  is_int (_inputs_count (this st)) ->
  (size (inputs (this st)) = _inputs_count (this st) ->
   addInput s st = (Throw (CapacityExceeded Input), st)) /\
  (size (inputs (this st)) < _inputs_count (this st) ->
   addInput s st
   = (Normal tt,
      {| this := {| inputs := inputs (this st) ++ [s];
                    outputs := outputs (this st);
                    _inputs_count := _inputs_count (this st) |};
         store := store st |})).
Proof.
  intros Hint. split; intros H.
  - now apply addInput_full.
  - now apply addInput_room.
Qed.

(** C4.  With one output attached [addOutput] throws and changes nothing;
    with none it appends the stream. *)
Theorem addOutput_respects_capacity (st : state) (s : ptr) :
  (size (outputs (this st)) = 1 ->
   addOutput s st = (Throw (CapacityExceeded Output), st)) /\
  (outputs (this st) = [] ->
   addOutput s st
   = (Normal tt,
      {| this := {| inputs := inputs (this st);
                    outputs := [s];
                    _inputs_count := _inputs_count (this st) |};
         store := store st |})).
Proof.
  split; intros H.
  - now apply addOutput_full.
  - now apply addOutput_room.
Qed.

(** C5, as amended.  For a mixer constructed with a capacity that is not
    negative, whatever the caller does next, every state the caller sees
    has at most [_inputs_count] inputs and at most one output. *)
Theorem bounds_hold_for_nonnegative_capacity (n : Z) (sigma : gmap ptr Stream) (cs : list call) :
  is_int n ->
  0 <= n ->
  Forall (fun st => capacity_inv (this st)) (trace cs (fresh_mixer n sigma)).
Proof.
  intros Hint Hn. apply trace_capacity_inv; [exact Hint|].
  split; unfold fresh_mixer, Mixer_new, size, MIXER_OUTPUTS;
    cbn [this inputs outputs _inputs_count length]; lia.
Qed.

(** C5, as stated, fails: [Mixer(-1)] breaks the bound on the inputs from
    the start, and [addInput] never refuses. *)
Lemma negative_capacity_breaks_bounds :
  is_int (-1) /\
  inputs (this (run [AddInput 1; AddInput 2; AddInput 3]
                  (fresh_mixer (-1) three_streams))) = [1; 2; 3]%positive /\
  ~ Forall (fun st => capacity_inv (this st))
      (trace [AddInput 1; AddInput 2; AddInput 3] (fresh_mixer (-1) three_streams)).
Proof.
  split; [unfold is_int; lia|]. split; [vm_compute; reflexivity|].
  intros H. apply Forall_inv in H. destruct H as [H _].
  unfold fresh_mixer, Mixer_new, size in H.
  cbn [this inputs _inputs_count length] in H. lia.
Qed.

(** C6.  No input and one output: [updateOutputs()] returns and the output
    stream holds [0], whatever it held before. *)
Theorem mixer_without_inputs_outputs_zero (st : state) (o : ptr) :
  inputs (this st) = [] ->
  outputs (this st) = [o] ->
  is_Some (store st !! o) ->
  exists st',
    updateOutputs st = (Normal tt, st') /\
    flow st' o = Some zero.
Proof.
  intros Hin Hout [so Ho].
  assert (Hfs : flows (store st) (inputs (this st)) = Some []) by now rewrite Hin.
  assert (Hl : live (store st) (outputs (this st))).
  { rewrite Hout. repeat constructor. now exists so. }
  eexists. split.
  - apply (updateOutputs_returns st [] Hfs); [now rewrite Hout | exact Hl].
  - unfold flow. cbn [store]. rewrite assign_all_lookup, Hout.
    rewrite decide_True by left. rewrite Ho. reflexivity.
Qed.

(** C7.  After an input stream is given a new flow [v], [updateOutputs()]
    leaves in the output the sum of the flows the inputs have at the time of
    the call: the old ones with [v] in place of the changed one. *)
Theorem mixer_recomputes_after_change (st : state) (p o : ptr) (v : double)
    (fs : list double) :
  outputs (this st) = [o] ->
  is_Some (store st !! o) ->
  p ∈ inputs (this st) ->
  flows (store st) (inputs (this st)) = Some fs ->
  Forall (fun f => valid f = true)
    (zip_with (fun q f => if decide (q = p) then v else f) (inputs (this st)) fs) ->
  exists st1 st2,
    call_setMassFlow p v st = (Normal tt, st1) /\
    updateOutputs st1 = (Normal tt, st2) /\
    flows (store st1) (inputs (this st1))
    = Some (zip_with (fun q f => if decide (q = p) then v else f)
              (inputs (this st)) fs) /\
    flow st2 o
    = Some (sum_flows (zip_with (fun q f => if decide (q = p) then v else f)
                         (inputs (this st)) fs)).
Proof.
  intros Hout [so Ho] Hp Hfs Hv.
  destruct (flows_elem _ _ _ _ Hfs Hp) as [sp Hsp].
  set (fs' := zip_with _ _ _) in *.
  set (st1 := {| this := this st; store := alter (setMassFlow v) p (store st) |}).
  assert (H1 : call_setMassFlow p v st = (Normal tt, st1)).
  { unfold call_setMassFlow. now rewrite Hsp. }
  assert (Hfs1 : flows (store st1) (inputs (this st1)) = Some fs').
  { apply flows_alter, Hfs. }
  assert (Hl : live (store st1) (outputs (this st1))).
  { cbn [this store st1]. apply live_alter. rewrite Hout.
    repeat constructor. now exists so. }
  assert (Ho1 : is_Some (store st1 !! o)).
  { unfold live in Hl. cbn [this st1] in Hl. rewrite Hout in Hl.
    now apply Forall_inv in Hl. }
  destruct Ho1 as [so1 Ho1].
  exists st1. eexists. repeat split.
  - exact H1.
  - apply (updateOutputs_returns st1 fs' Hfs1); [|exact Hl].
    cbn [this st1]. now rewrite Hout.
  - exact Hfs1.
  - unfold flow. cbn [store this st1]. rewrite assign_all_lookup, Hout.
    rewrite decide_True by left. cbn [store st1] in Ho1. rewrite Ho1.
    cbn [fmap option_fmap option_map setMassFlow getMassFlow mass_flow].
    f_equal. change (of_size (size [o])) with one.
    apply div_one, sum_flows_valid, Hv.
Qed.

(** C8.  If the first call of [updateOutputs()] returns and the input flows
    are afterwards what they were before it, a second call returns as well
    and every output stream keeps the flow the first call gave it. *)
Theorem mixer_update_idempotent (st st1 : state) :
  updateOutputs st = (Normal tt, st1) ->
  (forall p, p ∈ inputs (this st) -> flow st1 p = flow st p) ->
  exists st2,
    updateOutputs st1 = (Normal tt, st2) /\
    forall o, o ∈ outputs (this st) -> flow st2 o = flow st1 o.
Proof.
  intros H Hsame.
  destruct (updateOutputs_inv _ _ H) as (fs & Hfs & Hne & Hl & ->).
  set (m := div (sum_flows fs) (of_size (size (outputs (this st))))) in *.
  cbn [this store] in *.
  assert (Hfs1 : flows (assign_all m (outputs (this st)) (store st))
                   (inputs (this st)) = Some fs).
  { rewrite <- Hfs. apply flows_ext. intros p Hp. apply (Hsame p Hp). }
  set (st1 := {| this := this st;
                 store := assign_all m (outputs (this st)) (store st) |}) in *.
  eexists. split.
  - apply (updateOutputs_returns st1 fs Hfs1 Hne). cbn [this store st1].
    apply live_assign_all, Hl.
  - intros o Ho. unfold flow. cbn [this store st1]. fold m.
    rewrite !assign_all_lookup. rewrite !decide_True by assumption.
    destruct (store st !! o); reflexivity.
Qed.

(** C10.  When no input stream is also an output stream, a call of
    [updateOutputs()] that returns leaves every input stream as it was. *)
Theorem mixer_update_preserves_inputs (st st' : state) :
  updateOutputs st = (Normal tt, st') ->
  (forall p, p ∈ inputs (this st) -> p ∉ outputs (this st)) ->
  forall p, p ∈ inputs (this st) ->
    store st' !! p = store st !! p /\ flow st' p = flow st p.
Proof.
  intros H Hdisj p Hp.
  destruct (updateOutputs_inv _ _ H) as (fs & _ & _ & _ & ->).
  unfold flow. cbn [store]. rewrite assign_all_lookup.
  rewrite decide_False by (apply Hdisj, Hp). split; reflexivity.
Qed.

(** * The properties at the scenarios of the test functions *)

Ltac by_evaluation := vm_compute; first [reflexivity | eexists; reflexivity].

Ltac live_by_evaluation :=
  vm_compute;
  repeat (apply List.Forall_cons; [cbv beta; eexists; reflexivity|]);
  apply List.Forall_nil.

(** [Test4]: inputs [10] and [-5], the output becomes [5]. *)
Lemma Test4_output_is_five :
  inputs (this Test4_state) = [1; 2]%positive /\
  outputs (this Test4_state) = [3%positive] /\
  flow Test4_state 1 = Some (of_Z 10) /\
  flow Test4_state 2 = Some (of_Z (-5)) /\
  is_Some (store Test4_state !! 3%positive) /\
  valid (of_Z 10) = true /\
  valid (of_Z (-5)) = true /\
  exists st',
    updateOutputs Test4_state = (Normal tt, st') /\
    flow st' 3 = Some (of_Z 5) /\
    same_number (of_Z 5) (add (of_Z 10) (of_Z (-5))) = true /\
    (of_Z 10 <> S754_zero true \/ of_Z (-5) <> S754_zero true ->
     of_Z 5 = add (of_Z 10) (of_Z (-5))).
Proof.
  assert (H1 : inputs (this Test4_state) = [1; 2]%positive) by by_evaluation.
  assert (H2 : outputs (this Test4_state) = [3%positive]) by by_evaluation.
  assert (H3 : flow Test4_state 1 = Some (of_Z 10)) by by_evaluation.
  assert (H4 : flow Test4_state 2 = Some (of_Z (-5))) by by_evaluation.
  assert (H5 : is_Some (store Test4_state !! 3%positive)) by by_evaluation.
  assert (H6 : valid (of_Z 10) = true) by by_evaluation.
  assert (H7 : valid (of_Z (-5)) = true) by by_evaluation.
  repeat (split; [assumption|]).
  exact (mixer_sums_two_inputs Test4_state 1 2 3 (of_Z 10) (of_Z (-5))
           H1 H2 H3 H4 H5 H6 H7).
Defined.

(** [Test7]: two inputs, no output. *)
Lemma Test7_throws :
  outputs (this Test7_state) = [] /\
  live (store Test7_state) (inputs (this Test7_state)) /\
  updateOutputs Test7_state = (Throw MissingOutput, Test7_state).
Proof.
  assert (H1 : outputs (this Test7_state) = []) by by_evaluation.
  assert (H2 : live (store Test7_state) (inputs (this Test7_state)))
    by live_by_evaluation.
  repeat (split; [assumption|]).
  exact (mixer_without_output_throws Test7_state H1 H2).
Defined.

(** [Test3]: a third input on a mixer of capacity 2 is refused; the second
    one was accepted. *)
Lemma Test3_third_input_refused :
  (is_int (_inputs_count (this Test3_state)) /\
   size (inputs (this Test3_state)) = _inputs_count (this Test3_state) /\
   addInput 4 Test3_state = (Throw (CapacityExceeded Input), Test3_state)) /\
  (let st := run [AddInput 1] (fresh_mixer 2 four_streams) in
   is_int (_inputs_count (this st)) /\
   size (inputs (this st)) < _inputs_count (this st) /\
   addInput 2 st
   = (Normal tt,
      {| this := {| inputs := inputs (this st) ++ [2%positive];
                    outputs := outputs (this st);
                    _inputs_count := _inputs_count (this st) |};
         store := store st |})).
Proof.
  assert (Hint : is_int 2) by (unfold is_int; lia).
  split.
  - assert (H1 : size (inputs (this Test3_state)) = _inputs_count (this Test3_state))
      by by_evaluation.
    repeat (split; [first [exact Hint | assumption]|]).
    exact (proj1 (addInput_respects_capacity Test3_state 4 Hint) H1).
  - intros st.
    assert (H1 : size (inputs (this st)) < _inputs_count (this st)) by by_evaluation.
    repeat (split; [first [exact Hint | assumption]|]).
    exact (proj2 (addInput_respects_capacity st 2 Hint) H1).
Defined.

(** [Test2]: a second output is refused; the first one was accepted. *)
Lemma Test2_second_output_refused :
  (size (outputs (this Test3_state)) = 1 /\
   addOutput 4 Test3_state = (Throw (CapacityExceeded Output), Test3_state)) /\
  (let st := fresh_mixer 2 four_streams in
   outputs (this st) = [] /\
   addOutput 3 st
   = (Normal tt,
      {| this := {| inputs := inputs (this st);
                    outputs := [3%positive];
                    _inputs_count := _inputs_count (this st) |};
         store := store st |})).
Proof.
  split.
  - assert (H1 : size (outputs (this Test3_state)) = 1) by by_evaluation.
    split; [assumption|].
    exact (proj1 (addOutput_respects_capacity Test3_state 4) H1).
  - intros st.
    assert (H1 : outputs (this st) = []) by by_evaluation.
    split; [assumption|].
    exact (proj2 (addOutput_respects_capacity st 3) H1).
Defined.

(** The calls of [Test2] and [Test3] together, refused ones included. *)
Lemma Test3_bounds_hold :
  is_int 2 /\
  0 <= 2 /\
  Forall (fun st => capacity_inv (this st))
    (trace (Test1_setup ++ [AddInput 4; AddOutput 4; UpdateOutputs])
       (fresh_mixer 2 four_streams)).
Proof.
  assert (H1 : is_int 2) by (unfold is_int; lia).
  assert (H2 : 0 <= 2) by lia.
  repeat (split; [assumption|]).
  exact (bounds_hold_for_nonnegative_capacity 2 four_streams
           (Test1_setup ++ [AddInput 4; AddOutput 4; UpdateOutputs]) H1 H2).
Defined.

(** [Test5]: an output whose flow was never set, and no input. *)
Lemma Test5_output_is_zero :
  inputs (this Test5_state) = [] /\
  outputs (this Test5_state) = [1%positive] /\
  is_Some (store Test5_state !! 1%positive) /\
  exists st',
    updateOutputs Test5_state = (Normal tt, st') /\
    flow st' 1 = Some zero.
Proof.
  assert (H1 : inputs (this Test5_state) = []) by by_evaluation.
  assert (H2 : outputs (this Test5_state) = [1%positive]) by by_evaluation.
  assert (H3 : is_Some (store Test5_state !! 1%positive)) by by_evaluation.
  repeat (split; [assumption|]).
  exact (mixer_without_inputs_outputs_zero Test5_state 1 H1 H2 H3).
Defined.

(** [Test6]: inputs [10] and [5] gave [15]; the first input becomes [20] and
    the output [25]. *)
Lemma Test6_output_follows_input :
  flow Test6_state 3 = Some (of_Z 15) /\
  outputs (this Test6_state) = [3%positive] /\
  is_Some (store Test6_state !! 3%positive) /\
  1%positive ∈ inputs (this Test6_state) /\
  flows (store Test6_state) (inputs (this Test6_state)) = Some [of_Z 10; of_Z 5] /\
  Forall (fun f => valid f = true) [of_Z 20; of_Z 5] /\
  exists st1 st2,
    call_setMassFlow 1 (of_Z 20) Test6_state = (Normal tt, st1) /\
    updateOutputs st1 = (Normal tt, st2) /\
    flows (store st1) (inputs (this st1)) = Some [of_Z 20; of_Z 5] /\
    flow st2 3 = Some (of_Z 25).
Proof.
  assert (H0 : flow Test6_state 3 = Some (of_Z 15)) by by_evaluation.
  assert (H1 : outputs (this Test6_state) = [3%positive]) by by_evaluation.
  assert (H2 : is_Some (store Test6_state !! 3%positive)) by by_evaluation.
  assert (H3 : 1%positive ∈ inputs (this Test6_state)) by (vm_compute; left).
  assert (H4 : flows (store Test6_state) (inputs (this Test6_state))
               = Some [of_Z 10; of_Z 5]) by by_evaluation.
  assert (H5 : Forall (fun f => valid f = true) [of_Z 20; of_Z 5])
    by (repeat constructor).
  repeat (split; [assumption|]).
  exact (mixer_recomputes_after_change Test6_state 1 3 (of_Z 20) [of_Z 10; of_Z 5]
           H1 H2 H3 H4 H5).
Defined.

(** [Test6] without the change of the first input: a second
    [updateOutputs()] leaves [15] in the output. *)
Lemma Test6_second_update_same :
  updateOutputs Test1_state = (Normal tt, Test6_state) /\
  (forall p, p ∈ inputs (this Test1_state) ->
     flow Test6_state p = flow Test1_state p) /\
  flow Test6_state 3 = Some (of_Z 15) /\
  exists st2,
    updateOutputs Test6_state = (Normal tt, st2) /\
    forall o, o ∈ outputs (this Test1_state) -> flow st2 o = flow Test6_state o.
Proof.
  assert (H1 : updateOutputs Test1_state = (Normal tt, Test6_state)) by by_evaluation.
  assert (H2 : forall p, p ∈ inputs (this Test1_state) ->
                 flow Test6_state p = flow Test1_state p).
  { intros p Hp. change (inputs (this Test1_state)) with [1; 2]%positive in Hp.
    apply elem_of_cons in Hp as [->|Hp]; [by_evaluation|].
    apply elem_of_cons in Hp as [->|Hp]; [by_evaluation|].
    inversion Hp. }
  assert (H3 : flow Test6_state 3 = Some (of_Z 15)) by by_evaluation.
  repeat (split; [assumption|]).
  exact (mixer_update_idempotent Test1_state Test6_state H1 H2).
Defined.

(** [Test1]: the two inputs keep [10] and [5]. *)
Lemma Test1_inputs_kept :
  updateOutputs Test1_state = (Normal tt, Test6_state) /\
  (forall p, p ∈ inputs (this Test1_state) -> p ∉ outputs (this Test1_state)) /\
  forall p, p ∈ inputs (this Test1_state) ->
    store Test6_state !! p = store Test1_state !! p /\
    flow Test6_state p = flow Test1_state p.
Proof.
  assert (H1 : updateOutputs Test1_state = (Normal tt, Test6_state)) by by_evaluation.
  assert (H2 : forall p, p ∈ inputs (this Test1_state) ->
                 p ∉ outputs (this Test1_state)).
  { intros p Hp Hq.
    change (inputs (this Test1_state)) with [1; 2]%positive in Hp.
    change (outputs (this Test1_state)) with [3%positive] in Hq.
    apply list_elem_of_singleton in Hq. subst p.
    apply elem_of_cons in Hp as [Hp|Hp]; [discriminate|].
    apply elem_of_cons in Hp as [Hp|Hp]; [discriminate|].
    inversion Hp. }
  repeat (split; [assumption|]).
  exact (mixer_update_preserves_inputs Test1_state Test6_state H1 H2).
Defined.

(** [Test1]: [s1 -> setMassFlow(10.0)] on a stream whose flow was never
    set. *)
Lemma Test1_first_flow_is_ten :
  let self := Stream_new S754_nan 1 in
  getMassFlow (setMassFlow (of_Z 10) self) = of_Z 10 /\
  store (fresh_mixer 2 three_streams) !! 1%positive = Some self /\
  exists st',
    call_setMassFlow 1 (of_Z 10) (fresh_mixer 2 three_streams) = (Normal tt, st') /\
    store st' !! 1%positive = Some (setMassFlow (of_Z 10) self) /\
    call_getMassFlow 1 st' = (Normal (of_Z 10), st').
Proof.
  intros self.
  assert (H1 : store (fresh_mixer 2 three_streams) !! 1%positive = Some self)
    by by_evaluation.
  destruct (setMassFlow_then_getMassFlow self (of_Z 10)) as (Hget & _ & Hcall).
  split; [exact Hget|]. split; [exact H1|].
  exact (Hcall (fresh_mixer 2 three_streams) 1%positive H1).
Defined.

(** * Further facts about binary64 arithmetic *)

Section MoreDoubleFacts.

Lemma add_comm x y : add x y = add y x.
Proof.
  unfold add.
  destruct x as [[]|[]| |sx mx ex], y as [[]|[]| |sy my ey]; try reflexivity.
  cbn [SFadd]. rewrite (Z.min_comm ey ex). f_equal. apply Z.add_comm.
Qed.

(** With two terms the loop of [updateOutputs] does not depend on the
    order. *)
Lemma add_zero_swap a b : add (add zero a) b = add (add zero b) a.
Proof.
  destruct (add_zero_add a b) as [E|(-> & -> & _)]; [|reflexivity].
  destruct (add_zero_add b a) as [E'|(-> & -> & _)]; [|reflexivity].
  rewrite E, E'. apply add_comm.
Qed.

End MoreDoubleFacts.

(** * Further facts about the member functions *)

Section MoreMixerFacts.

Implicit Types (st : state) (sigma : gmap ptr Stream) (v : list ptr) (p : ptr).

Lemma to_string_inj s s' : to_string s = to_string s' -> s = s'.
Proof.
  unfold to_string. intros H. apply DecimalZ.to_int_inj.
  pose proof (NilEmpty.isi (Z.to_int s)) as E.
  rewrite H, NilEmpty.isi in E. congruence.
Qed.

(** What the second loop has done to a stream when it stops, however it
    stops. *)
Lemma write_loop_lookup m v : forall st p,
  let st' := snd (for_each v (fun output_stream =>
                    call_setMassFlow output_stream m) st) in
  (p ∉ v -> store st' !! p = store st !! p) /\
  (store st' !! p = store st !! p \/
   store st' !! p = setMassFlow m <$> store st !! p).
Proof.
  induction v as [|q v IH]; intros st p; cbn zeta.
  - split; [reflexivity | now left].
  - simpl. unfold mbind, M_bind, bind, call_setMassFlow.
    destruct (store st !! q) as [s|] eqn:Hq; [|split; [reflexivity | now left]].
    destruct (IH {| this := this st;
                    store := alter (setMassFlow m) q (store st) |} p) as [H1 H2].
    cbn zeta in H1, H2. cbn [store] in H1, H2.
    destruct (for_each v _ _) as [[| |] st'] eqn:E; cbn [snd] in *.
    all: split;
      [ intros Hp; rewrite H1 by (intros Hin; apply Hp; now right);
        apply lookup_alter_ne; intros ->; apply Hp; now left
      | destruct (decide (q = p)) as [->|Hne];
        [ right; destruct H2 as [H2|H2]; rewrite H2, lookup_alter_eq, Hq;
          reflexivity
        | rewrite lookup_alter_ne in H2 by assumption; exact H2 ] ].
Qed.

Lemma updateOutputs_lookup st p :
  (p ∉ outputs (this st) ->
   store (snd (updateOutputs st)) !! p = store st !! p) /\
  (store (snd (updateOutputs st)) !! p = store st !! p \/
   exists m, store (snd (updateOutputs st)) !! p = setMassFlow m <$> store st !! p).
Proof.
  unfold updateOutputs, mbind, M_bind, bind, member.
  rewrite sum_loop_spec.
  destruct (flows (store st) (inputs (this st))) as [fs|];
    [|split; [reflexivity | now left]].
  destruct (bool_decide (outputs (this st) = []));
    [split; [reflexivity | now left]|].
  destruct (write_loop_lookup
              (div (fold_left add fs zero) (of_size (size (outputs (this st)))))
              (outputs (this st)) st p) as [H1 H2].
  cbn zeta in H1, H2.
  destruct (for_each _ _ _) as [[| |] st'] eqn:E; cbn [snd] in *.
  all: split; [exact H1 | destruct H2 as [H2|H2]; [now left | right; eauto]].
Qed.

(** No call creates or destroys a stream, and none renames one. *)
Lemma exec_names c st p :
  getName <$> store (snd (exec c st)) !! p = getName <$> store st !! p.
Proof.
  destruct c as [s|s| |s m]; cbn [exec].
  - unfold addInput, mbind, M_bind, bind, member.
    destruct (_ =? _); reflexivity.
  - unfold addOutput, mbind, M_bind, bind, member.
    destruct (_ =? _); reflexivity.
  - destruct (updateOutputs_lookup st p) as [_ [H|[m H]]]; rewrite H;
      [reflexivity|]. destruct (store st !! p); reflexivity.
  - unfold call_setMassFlow. destruct (store st !! s) eqn:Hs; [|reflexivity].
    cbn [snd store]. rewrite lookup_alter. case_decide; [subst|reflexivity].
    rewrite Hs. reflexivity.
Qed.

Lemma exec_is_Some c st p :
  is_Some (store (snd (exec c st)) !! p) <-> is_Some (store st !! p).
Proof.
  pose proof (exec_names c st p) as H.
  rewrite <- !(fmap_is_Some getName), H. reflexivity.
Qed.

(** What [addInput] and [addOutput] do to the mixer object. *)
Lemma addInput_this s st :
  this (snd (addInput s st))
  = if size (inputs (this st)) =? to_size_t (_inputs_count (this st))
    then this st
    else {| inputs := inputs (this st) ++ [s];
            outputs := outputs (this st);
            _inputs_count := _inputs_count (this st) |}.
Proof.
  unfold addInput, mbind, M_bind, bind, member.
  destruct (_ =? _); reflexivity.
Qed.

Lemma addOutput_this s st :
  this (snd (addOutput s st))
  = if size (outputs (this st)) =? 1
    then this st
    else {| inputs := inputs (this st);
            outputs := outputs (this st) ++ [s];
            _inputs_count := _inputs_count (this st) |}.
Proof.
  unfold addOutput, mbind, M_bind, bind, member.
  change (to_size_t MIXER_OUTPUTS) with 1.
  destruct (_ =? _); reflexivity.
Qed.

Lemma addInput_never_faults s st : fst (addInput s st) <> Undefined.
Proof.
  unfold addInput, mbind, M_bind, bind, member.
  destruct (_ =? _); discriminate.
Qed.

Lemma addOutput_never_faults s st : fst (addOutput s st) <> Undefined.
Proof.
  unfold addOutput, mbind, M_bind, bind, member.
  destruct (_ =? _); discriminate.
Qed.

Lemma addInput_store s st : store (snd (addInput s st)) = store st.
Proof.
  unfold addInput, mbind, M_bind, bind, member.
  destruct (_ =? _); reflexivity.
Qed.

Lemma addOutput_store s st : store (snd (addOutput s st)) = store st.
Proof.
  unfold addOutput, mbind, M_bind, bind, member.
  destruct (_ =? _); reflexivity.
Qed.

(** One call lengthens the vectors at the end or leaves them. *)
Lemma exec_append c st :
  _inputs_count (this (snd (exec c st))) = _inputs_count (this st) /\
  inputs (this st) `prefix_of` inputs (this (snd (exec c st))) /\
  outputs (this st) `prefix_of` outputs (this (snd (exec c st))).
Proof.
  destruct c as [s|s| |s m]; cbn [exec].
  - rewrite addInput_this. destruct (_ =? _); cbn [inputs outputs _inputs_count];
      repeat split; try reflexivity. now exists [s].
  - rewrite addOutput_this. destruct (_ =? _); cbn [inputs outputs _inputs_count];
      repeat split; try reflexivity. now exists [s].
  - rewrite updateOutputs_this. repeat split; reflexivity.
  - rewrite call_setMassFlow_this. repeat split; reflexivity.
Qed.

Lemma write_loop_never_throws m v : forall st what st',
  for_each v (fun output_stream => call_setMassFlow output_stream m) st
  <> (Throw what, st').
Proof.
  induction v as [|q v IH]; intros st what st'; [discriminate|].
  simpl. unfold mbind, M_bind, bind, call_setMassFlow.
  destruct (store st !! q); [apply IH | discriminate].
Qed.

Lemma run_cons c cs st :
  run (c :: cs) st
  = match fst (exec c st) with
    | Undefined => snd (exec c st)
    | _ => run cs (snd (exec c st))
    end.
Proof. cbn [run]. destruct (exec c st) as [[| |] st']; reflexivity. Qed.

End MoreMixerFacts.

(** * Further properties *)

(** X1.  A stream constructed with the number [s] is named ["s"] followed
    by the decimal digits of [s]; its mass flow is whatever the storage
    held.  Streams constructed with different numbers have different
    names. *)
Theorem Stream_names_follow_numbers (i i' : double) (s s' : Z) :
  getName (Stream_new i s) = ("s" ++ to_string s)%string /\
  getMassFlow (Stream_new i s) = i /\
  (getName (Stream_new i s) = getName (Stream_new i' s') <-> s = s').
Proof.
  repeat split.
  - cbn. intros H. injection H as H. now apply to_string_inj.
  - intros ->. reflexivity.
Qed.

(** X2.  Whatever the number of inputs and of outputs: when every attached
    pointer manages a stream and there is an output, [updateOutputs()]
    returns and every output stream holds the sum of the input flows
    divided by the number of outputs. *)
Theorem every_output_gets_the_share (st : state) (fs : list double) :
  flows (store st) (inputs (this st)) = Some fs ->
  outputs (this st) <> [] ->
  live (store st) (outputs (this st)) ->
  exists st',
    updateOutputs st = (Normal tt, st') /\
    forall o, o ∈ outputs (this st) ->
      flow st' o = Some (div (sum_flows fs) (of_size (size (outputs (this st))))).
Proof.
  intros Hfs Hne Hl. eexists. split.
  - apply (updateOutputs_returns st fs Hfs Hne Hl).
  - intros o Ho. unfold flow. cbn [store].
    rewrite assign_all_lookup, decide_True by assumption.
    unfold live in Hl. rewrite Forall_forall in Hl.
    destruct (Hl o Ho) as [s ->]. reflexivity.
Qed.

(** X3.  However [updateOutputs()] ends, it has not touched the mixer
    object, has renamed no stream, has created or destroyed none, and has
    left every stream that is not an output as it was. *)
Theorem update_writes_only_output_flows (st : state) (p : ptr) :
  this (snd (updateOutputs st)) = this st /\
  getName <$> store (snd (updateOutputs st)) !! p = getName <$> store st !! p /\
  (p ∉ outputs (this st) -> store (snd (updateOutputs st)) !! p = store st !! p).
Proof.
  split; [apply updateOutputs_this|]. split.
  - apply (exec_names UpdateOutputs).
  - apply updateOutputs_lookup.
Qed.

(** X4.  A call that throws has changed nothing, neither the mixer nor any
    stream; [setMassFlow] never throws, and each of the other three throws
    one message only, for one reason only. *)
Theorem a_throw_leaves_no_trace (c : call) (st st' : state) (what : string) :
  exec c st = (Throw what, st') ->
  st' = st /\
  ((exists s, c = AddInput s) /\ what = "Too much inputs"%string /\
     size (inputs (this st)) = to_size_t (_inputs_count (this st))
   \/ (exists s, c = AddOutput s) /\ what = "Too much outputs"%string /\
     size (outputs (this st)) = 1
   \/ c = UpdateOutputs /\ what = "Should set outputs before update"%string /\
     outputs (this st) = []).
Proof.
  destruct c as [s|s| |s m]; cbn [exec]; intros H.
  - unfold addInput, mbind, M_bind, bind, member in H.
    destruct (_ =? _) eqn:E; [|discriminate]. apply Z.eqb_eq in E.
    injection H as <- <-. split; [reflexivity|]. left. eauto.
  - unfold addOutput, mbind, M_bind, bind, member in H.
    change (to_size_t MIXER_OUTPUTS) with 1 in H.
    destruct (_ =? _) eqn:E; [|discriminate]. apply Z.eqb_eq in E.
    injection H as <- <-. split; [reflexivity|]. right. left. eauto.
  - unfold updateOutputs, mbind, M_bind, bind, member in H.
    rewrite sum_loop_spec in H.
    destruct (flows (store st) (inputs (this st))) as [fs|]; [|discriminate].
    destruct (bool_decide (outputs (this st) = [])) eqn:E.
    + apply bool_decide_eq_true_1 in E. injection H as <- <-.
      split; [reflexivity|]. right. right. auto.
    + exfalso. exact (write_loop_never_throws _ _ _ _ _ H).
  - unfold call_setMassFlow in H. destruct (store st !! s); discriminate.
Qed.

(** X5.  Whatever the caller does: the capacity given at construction stays,
    streams once attached stay attached in their place (the vectors only
    grow at the end), and no stream is created, destroyed or renamed. *)
Theorem nothing_is_ever_detached (cs : list call) (st : state) :
  _inputs_count (this (run cs st)) = _inputs_count (this st) /\
  inputs (this st) `prefix_of` inputs (this (run cs st)) /\
  outputs (this st) `prefix_of` outputs (this (run cs st)) /\
  forall p, getName <$> store (run cs st) !! p = getName <$> store st !! p.
Proof.
  revert st. induction cs as [|c cs IH]; intros st.
  - cbn [run]. repeat split; reflexivity.
  - rewrite run_cons.
    destruct (exec_append c st) as (Hn & Hi & Ho).
    pose proof (exec_names c st) as Hnames.
    destruct (fst (exec c st)).
    1,2: destruct (IH (snd (exec c st))) as (Hn' & Hi' & Ho' & Hnames');
      repeat split;
      [ congruence | etrans; eassumption | etrans; eassumption
      | intros p; rewrite Hnames'; apply Hnames ].
    repeat split; assumption.
Qed.

Section AttachFacts.

Implicit Types (st : state) (sigma : gmap ptr Stream) (v : list ptr) (p : ptr).

(** Attaching while there is room. *)
Lemma attach_inputs_room v : forall st,
  size (inputs (this st)) + size v <= to_size_t (_inputs_count (this st)) ->
  this (run (map AddInput v) st)
  = {| inputs := inputs (this st) ++ v;
       outputs := outputs (this st);
       _inputs_count := _inputs_count (this st) |}
  /\ store (run (map AddInput v) st) = store st.
Proof.
  induction v as [|s v IH]; intros st Hsz.
  - cbn [map run]. rewrite app_nil_r. destruct st as [[] ?]; split; reflexivity.
  - cbn [map]. rewrite run_cons. cbn [exec].
    pose proof (addInput_never_faults s st) as Hnf.
    pose proof (addInput_this s st) as Hthis.
    pose proof (addInput_store s st) as Hstore.
    unfold size in Hsz. cbn [length] in Hsz.
    rewrite (proj2 (Z.eqb_neq _ _)) in Hthis by (unfold size; lia).
    destruct (addInput s st) as [[[]| |] st1]; cbn [fst snd] in *;
      try congruence.
    all: destruct (IH st1) as [IH1 IH2];
      [ rewrite Hthis; cbn [inputs _inputs_count]; unfold size;
        rewrite length_app; cbn [length]; lia
      | rewrite IH1, IH2, Hthis, Hstore; cbn [inputs outputs _inputs_count];
        rewrite <- app_assoc; split; reflexivity ].
Qed.

(** Attaching to a mixer that is full. *)
Lemma attach_inputs_full v : forall st,
  size (inputs (this st)) = to_size_t (_inputs_count (this st)) ->
  run (map AddInput v) st = st.
Proof.
  induction v as [|s v IH]; intros st Hsz; [reflexivity|].
  cbn [map run exec]. unfold addInput, mbind, M_bind, bind, member.
  rewrite (proj2 (Z.eqb_eq _ _) Hsz). unfold throw. now apply IH.
Qed.

Lemma attach_outputs_full v : forall st,
  size (outputs (this st)) = 1 ->
  run (map AddOutput v) st = st.
Proof.
  induction v as [|s v IH]; intros st Hsz; [reflexivity|].
  cbn [map run exec]. rewrite addOutput_full by assumption. now apply IH.
Qed.

(** Attaching to a mixer whose capacity is not negative: what fits is
    attached, the rest is refused. *)
Lemma attach_inputs_take v : forall st,
  is_int (_inputs_count (this st)) ->
  size (inputs (this st)) <= _inputs_count (this st) ->
  this (run (map AddInput v) st)
  = {| inputs := inputs (this st)
                 ++ take (Z.to_nat (_inputs_count (this st) - size (inputs (this st)))) v;
       outputs := outputs (this st);
       _inputs_count := _inputs_count (this st) |}
  /\ store (run (map AddInput v) st) = store st.
Proof.
  induction v as [|s v IH]; intros st Hint Hsz.
  - cbn [map run]. rewrite take_nil, app_nil_r.
    destruct st as [[] ?]; split; reflexivity.
  - destruct (Z.eq_dec (size (inputs (this st))) (_inputs_count (this st)))
      as [E|E].
    + rewrite attach_inputs_full
        by (rewrite to_size_t_nonneg; unfold size in *; try assumption; lia).
      replace (_inputs_count (this st) - size (inputs (this st))) with 0 by lia.
      cbn [Z.to_nat take]. rewrite app_nil_r.
      destruct st as [[] ?]; split; reflexivity.
    + cbn [map run exec]. rewrite addInput_room by (try assumption; lia).
      set (st1 := {| this := _; store := store st |}).
      destruct (IH st1) as [IH1 IH2]; [exact Hint | |].
      { cbn [st1 this inputs _inputs_count]. unfold size in *.
        rewrite length_app. cbn [length]. lia. }
      rewrite IH1, IH2. cbn [st1 this store inputs outputs _inputs_count].
      split; [|reflexivity]. f_equal. rewrite <- app_assoc. f_equal.
      unfold size in *. rewrite length_app. cbn [length].
      replace (Z.to_nat (_inputs_count (this st) - Z.of_nat (length (inputs (this st)))))
        with (S (Z.to_nat (_inputs_count (this st)
                           - Z.of_nat (length (inputs (this st)) + 1)))) by lia.
      reflexivity.
Qed.

End AttachFacts.

Section OrderFacts.

Implicit Types (st : state) (sigma : gmap ptr Stream) (v : list ptr) (p : ptr).

(** The second loop looks at the streams only, not at the mixer object. *)
Lemma write_loop_store_only m v : forall st1 st2,
  store st1 = store st2 ->
  fst (for_each v (fun o => call_setMassFlow o m) st1)
  = fst (for_each v (fun o => call_setMassFlow o m) st2) /\
  store (snd (for_each v (fun o => call_setMassFlow o m) st1))
  = store (snd (for_each v (fun o => call_setMassFlow o m) st2)).
Proof.
  induction v as [|q v IH]; intros st1 st2 E; [split; [reflexivity | exact E]|].
  simpl. unfold mbind, M_bind, bind, call_setMassFlow. rewrite E.
  destruct (store st2 !! q); [|split; [reflexivity | exact E]].
  apply IH. reflexivity.
Qed.

(** [updateOutputs] on two mixers over the same store that have the same
    outputs and whose inputs sum to the same: the same ending, the same
    streams. *)
Lemma updateOutputs_same_sum st1 st2 :
  store st1 = store st2 ->
  outputs (this st1) = outputs (this st2) ->
  sum_flows <$> flows (store st1) (inputs (this st1))
  = sum_flows <$> flows (store st2) (inputs (this st2)) ->
  fst (updateOutputs st1) = fst (updateOutputs st2) /\
  store (snd (updateOutputs st1)) = store (snd (updateOutputs st2)).
Proof.
  intros Es Eo Ef. unfold updateOutputs, mbind, M_bind, bind, member.
  rewrite !sum_loop_spec.
  destruct (flows (store st1) (inputs (this st1))) as [fs1|],
           (flows (store st2) (inputs (this st2))) as [fs2|];
    try discriminate; [|split; [reflexivity | exact Es]].
  injection Ef as Ef. unfold sum_flows in Ef. rewrite Ef, <- Eo.
  destruct (bool_decide (outputs (this st1) = []));
    [split; [reflexivity | exact Es]|].
  now apply write_loop_store_only.
Qed.

(** A caller whose pointers manage streams keeps all attached pointers
    managing streams. *)
Lemma exec_live c st :
  (forall p, call_ptr c = Some p -> is_Some (store st !! p)) ->
  live (store st) (inputs (this st)) ->
  live (store st) (outputs (this st)) ->
  fst (exec c st) <> Undefined /\
  live (store (snd (exec c st))) (inputs (this (snd (exec c st)))) /\
  live (store (snd (exec c st))) (outputs (this (snd (exec c st)))).
Proof.
  intros Hc Hi Ho.
  assert (Hkeep : forall v, live (store st) v -> live (store (snd (exec c st))) v).
  { intros v Hv. unfold live in *. eapply Forall_impl; [exact Hv|].
    intros p Hp. now apply exec_is_Some. }
  destruct c as [s|s| |s m]; cbn [exec] in *.
  - split; [apply addInput_never_faults|].
    rewrite addInput_this. destruct (_ =? _); cbn [inputs outputs].
    + split; apply Hkeep; assumption.
    + split; [|apply Hkeep; assumption].
      apply Forall_app. split; [apply Hkeep; assumption|].
      constructor; [|constructor].
      apply (exec_is_Some (AddInput s)). now apply Hc.
  - split; [apply addOutput_never_faults|].
    rewrite addOutput_this. destruct (_ =? _); cbn [inputs outputs].
    + split; apply Hkeep; assumption.
    + split; [apply Hkeep; assumption|].
      apply Forall_app. split; [apply Hkeep; assumption|].
      constructor; [|constructor].
      apply (exec_is_Some (AddOutput s)). now apply Hc.
  - rewrite updateOutputs_this. split; [|split; apply Hkeep; assumption].
    destruct (live_flows _ _ Hi) as [fs Hfs].
    destruct (decide (outputs (this st) = [])) as [E|E].
    + rewrite updateOutputs_throws by assumption. discriminate.
    + rewrite (updateOutputs_returns st fs) by assumption. discriminate.
  - rewrite call_setMassFlow_this. split; [|split; apply Hkeep; assumption].
    unfold call_setMassFlow. destruct (Hc s eq_refl) as [x ->]. discriminate.
Qed.

End OrderFacts.

(** X6.  Streams attached one after the other to a new mixer of capacity
    [n >= 0]: the first [n] become its inputs, in order, every later one is
    refused; of the outputs offered the first one is kept. *)
Theorem the_first_n_are_attached (n : Z) (sigma : gmap ptr Stream)
    (v w : list ptr) :
  is_int n ->
  0 <= n ->
  inputs (this (run (map AddInput v) (fresh_mixer n sigma))) = take (Z.to_nat n) v /\
  outputs (this (run (map AddOutput w) (fresh_mixer n sigma))) = take 1 w.
Proof.
  intros Hint Hn. split.
  - destruct (attach_inputs_take v (fresh_mixer n sigma)) as [H _];
      [exact Hint | unfold size; cbn; lia |].
    rewrite H. cbn [inputs fresh_mixer this Mixer_new _inputs_count].
    unfold size. cbn [length]. now rewrite Z.sub_0_r.
  - destruct w as [|o w]; [reflexivity|].
    cbn [map run exec]. rewrite addOutput_room by reflexivity.
    rewrite attach_outputs_full by reflexivity. reflexivity.
Qed.

(** X7.  A mixer constructed with a negative capacity refuses no input:
    all the streams offered are attached. *)
Theorem a_negative_capacity_is_no_limit (n : Z) (sigma : gmap ptr Stream)
    (v : list ptr) :
  is_int n ->
  n < 0 ->
  size v < 2 ^ 63 ->
  inputs (this (run (map AddInput v) (fresh_mixer n sigma))) = v.
Proof.
  intros Hint Hn Hv.
  destruct (attach_inputs_room v (fresh_mixer n sigma)) as [H _].
  - cbn [fresh_mixer this Mixer_new inputs _inputs_count].
    unfold is_int in Hint. unfold to_size_t.
    change (2 ^ 31) with 2147483648 in Hint.
    change (2 ^ 63) with 9223372036854775808 in Hv.
    change (2 ^ 64) with 18446744073709551616.
    assert (E : n mod 18446744073709551616 = n + 18446744073709551616).
    { symmetry. apply Z.mod_unique with (-1); lia. }
    rewrite E. unfold size in *. cbn [length]. lia.
  - rewrite H. reflexivity.
Qed.

(** X8.  With two inputs it does not matter in which order they were
    attached: [updateOutputs()] ends the same way and leaves the same
    streams. *)
Theorem two_inputs_in_either_order (sigma : gmap ptr Stream) (i1 i2 : ptr)
    (outs : list ptr) (n n' : Z) :
  let st1 := {| this := {| inputs := [i1; i2]; outputs := outs;
                           _inputs_count := n |};
                store := sigma |} in
  let st2 := {| this := {| inputs := [i2; i1]; outputs := outs;
                           _inputs_count := n' |};
                store := sigma |} in
  fst (updateOutputs st1) = fst (updateOutputs st2) /\
  store (snd (updateOutputs st1)) = store (snd (updateOutputs st2)).
Proof.
  intros st1 st2. apply updateOutputs_same_sum; try reflexivity.
  cbn [st1 st2 this store inputs flows].
  destruct (sigma !! i1) as [s1|], (sigma !! i2) as [s2|]; try reflexivity.
  cbn. f_equal. apply add_zero_swap.
Qed.

(** X9.  With three inputs the order can matter: the sum is accumulated
    from left to right, each step rounded. *)
Theorem three_inputs_order_matters :
  ~ (forall (sigma : gmap ptr Stream) (v v' : list ptr) (o : ptr) (n : Z),
       v ≡ₚ v' ->
       flow (snd (updateOutputs
                    {| this := {| inputs := v; outputs := [o];
                                  _inputs_count := n |};
                       store := sigma |})) o
       = flow (snd (updateOutputs
                      {| this := {| inputs := v'; outputs := [o];
                                    _inputs_count := n |};
                         store := sigma |})) o).
Proof.
  intros H.
  specialize (H (store (run [SetMassFlow 1 (of_Z (2 ^ 53));
                             SetMassFlow 2 (of_Z 1);
                             SetMassFlow 3 (of_Z 1)]
                          (fresh_mixer 3 four_streams)))
                [1; 2; 3]%positive [2; 3; 1]%positive 4%positive 3).
  assert (Hp : [1; 2; 3]%positive ≡ₚ [2; 3; 1]%positive).
  { etrans; [apply perm_swap|]. apply perm_skip, perm_swap. }
  specialize (H Hp). vm_compute in H. discriminate H.
Qed.

(** X10.  A stream that is both the first input and the output of a mixer
    accumulates: each [updateOutputs()] adds the other input to what the
    stream holds. *)
Theorem an_output_fed_back_accumulates (st : state) (o q : ptr) (a b : double) :
  inputs (this st) = [o; q] ->
  outputs (this st) = [o] ->
  o <> q ->
  flow st o = Some a ->
  flow st q = Some b ->
  valid a = true ->
  valid b = true ->
  exists st1 st2,
    updateOutputs st = (Normal tt, st1) /\
    updateOutputs st1 = (Normal tt, st2) /\
    flow st1 o = Some (add (add zero a) b) /\
    flow st2 o = Some (add (add zero (add (add zero a) b)) b).
Proof.
  intros Hin Hout Hne Ha Hb Va Vb. unfold flow in Ha, Hb.
  destruct (store st !! o) as [so|] eqn:Ho; [|discriminate].
  destruct (store st !! q) as [sq|] eqn:Hq; [|discriminate].
  cbn in Ha, Hb. injection Ha as Ha. injection Hb as Hb.
  assert (Hfs : flows (store st) (inputs (this st)) = Some [a; b]).
  { rewrite Hin. cbn [flows]. rewrite Ho, Hq. cbn. now rewrite Ha, Hb. }
  assert (Hl : live (store st) (outputs (this st))).
  { rewrite Hout. repeat constructor. now exists so. }
  assert (Hnil : outputs (this st) <> []) by now rewrite Hout.
  pose proof (updateOutputs_returns st [a; b] Hfs Hnil Hl) as H1.
  rewrite Hout in H1. change (of_size (size [o])) with one in H1.
  unfold sum_flows in H1. cbn [fold_left] in H1.
  rewrite div_one in H1
    by (repeat apply add_valid; first [assumption | reflexivity]).
  cbn [assign_all foldl] in H1.
  set (c := add (add zero a) b) in *.
  set (st1 := {| this := this st; store := alter (setMassFlow c) o (store st) |}) in *.
  assert (Vc : valid c = true)
    by (repeat apply add_valid; first [assumption | reflexivity]).
  assert (Ho1 : store st1 !! o = Some (setMassFlow c so)).
  { cbn [st1 store]. now rewrite lookup_alter_eq, Ho. }
  assert (Hq1 : store st1 !! q = Some sq).
  { cbn [st1 store]. now rewrite lookup_alter_ne. }
  assert (Hfs1 : flows (store st1) (inputs (this st1)) = Some [c; b]).
  { cbn [st1 this]. rewrite Hin. cbn [flows]. fold st1.
    change (alter (setMassFlow c) o (store st)) with (store st1).
    rewrite Ho1, Hq1. cbn. now rewrite Hb. }
  assert (Hl1 : live (store st1) (outputs (this st1))).
  { cbn [st1 this]. rewrite Hout. repeat constructor. rewrite Ho1. eauto. }
  assert (Hnil1 : outputs (this st1) <> []) by (cbn [st1 this]; now rewrite Hout).
  pose proof (updateOutputs_returns st1 [c; b] Hfs1 Hnil1 Hl1) as H2.
  cbn [st1 this] in H2. rewrite Hout in H2.
  change (of_size (size [o])) with one in H2.
  unfold sum_flows in H2. cbn [fold_left] in H2.
  rewrite div_one in H2
    by (repeat apply add_valid; first [assumption | reflexivity]).
  cbn [assign_all foldl] in H2.
  exists st1. eexists. split; [exact H1|]. split; [exact H2|]. split.
  - unfold flow. rewrite Ho1. reflexivity.
  - unfold flow. cbn [store]. rewrite lookup_alter_eq.
    change (alter (setMassFlow c) o (store st)) with (store st1).
    rewrite Ho1. reflexivity.
Qed.

(** X17.  Two mixers in series over the same streams, the output of the
    first being the first input of the second: after [updateOutputs()] on
    the first and then on the second, the output of the second holds the sum
    of the three flows that enter, accumulated in that order. *)
Theorem mixers_in_series (sigma : gmap ptr Stream) (A B : Mixer)
    (i1 i2 i3 mid o : ptr) (a b c : double) :
  inputs A = [i1; i2] ->
  outputs A = [mid] ->
  inputs B = [mid; i3] ->
  outputs B = [o] ->
  mid <> i3 ->
  getMassFlow <$> sigma !! i1 = Some a ->
  getMassFlow <$> sigma !! i2 = Some b ->
  getMassFlow <$> sigma !! i3 = Some c ->
  is_Some (sigma !! mid) ->
  is_Some (sigma !! o) ->
  valid a = true ->
  valid b = true ->
  valid c = true ->
  exists st1 st2,
    updateOutputs {| this := A; store := sigma |} = (Normal tt, st1) /\
    this st1 = A /\
    updateOutputs {| this := B; store := store st1 |} = (Normal tt, st2) /\
    flow st1 mid = Some (add (add zero a) b) /\
    flow st2 o = Some (add (add zero (add (add zero a) b)) c).
Proof.
  intros HAi HAo HBi HBo Hne Ha Hb Hc [sm Hm] [so Ho] Va Vb Vc.
  destruct (sigma !! i1) as [s1|] eqn:H1; [|discriminate].
  destruct (sigma !! i2) as [s2|] eqn:H2; [|discriminate].
  destruct (sigma !! i3) as [s3|] eqn:H3; [|discriminate].
  cbn in Ha, Hb, Hc. injection Ha as Ha. injection Hb as Hb. injection Hc as Hc.
  set (stA := {| this := A; store := sigma |}).
  assert (HfA : flows (store stA) (inputs (this stA)) = Some [a; b]).
  { cbn [stA this store]. rewrite HAi. cbn [flows]. rewrite H1, H2. cbn.
    now rewrite Ha, Hb. }
  assert (HlA : live (store stA) (outputs (this stA))).
  { cbn [stA this store]. rewrite HAo. repeat constructor. now exists sm. }
  assert (HnA : outputs (this stA) <> []) by (cbn [stA this]; now rewrite HAo).
  pose proof (updateOutputs_returns stA [a; b] HfA HnA HlA) as E1.
  cbn [stA this store] in E1. rewrite HAo in E1.
  change (of_size (size [mid])) with one in E1.
  unfold sum_flows in E1. cbn [fold_left] in E1.
  rewrite div_one in E1
    by (repeat apply add_valid; first [assumption | reflexivity]).
  cbn [assign_all foldl] in E1.
  set (m := add (add zero a) b) in *.
  assert (Vm : valid m = true)
    by (repeat apply add_valid; first [assumption | reflexivity]).
  set (sigma1 := alter (setMassFlow m) mid sigma) in *.
  assert (Hm1 : sigma1 !! mid = Some (setMassFlow m sm)).
  { unfold sigma1. now rewrite lookup_alter_eq, Hm. }
  assert (H31 : sigma1 !! i3 = Some s3).
  { unfold sigma1. now rewrite lookup_alter_ne. }
  assert (Ho1 : is_Some (sigma1 !! o)).
  { unfold sigma1. rewrite lookup_alter. case_decide; subst; rewrite ?Hm, ?Ho;
      cbn; eauto. }
  set (stB := {| this := B; store := sigma1 |}).
  assert (HfB : flows (store stB) (inputs (this stB)) = Some [m; c]).
  { cbn [stB this store]. rewrite HBi. cbn [flows]. rewrite Hm1, H31. cbn.
    now rewrite Hc. }
  assert (HlB : live (store stB) (outputs (this stB))).
  { cbn [stB this store]. rewrite HBo. repeat constructor. exact Ho1. }
  assert (HnB : outputs (this stB) <> []) by (cbn [stB this]; now rewrite HBo).
  pose proof (updateOutputs_returns stB [m; c] HfB HnB HlB) as E2.
  cbn [stB this store] in E2. rewrite HBo in E2.
  change (of_size (size [o])) with one in E2.
  unfold sum_flows in E2. cbn [fold_left] in E2.
  rewrite div_one in E2
    by (repeat apply add_valid; first [assumption | reflexivity]).
  cbn [assign_all foldl] in E2.
  eexists. eexists. split; [exact E1|]. split; [reflexivity|].
  split; [exact E2|]. split.
  - unfold flow. cbn [store]. fold sigma1. rewrite Hm1. reflexivity.
  - unfold flow. cbn [store]. rewrite lookup_alter_eq.
    destruct Ho1 as [x ->]. reflexivity.
Qed.

(** X11.  A caller who hands over only pointers that manage streams never
    runs into undefined behaviour: every call of the sequence returns or
    throws, whatever the order of the calls. *)
Theorem live_pointers_are_enough (cs : list call) (st : state) :
  live (store st) (inputs (this st)) ->
  live (store st) (outputs (this st)) ->
  Forall (fun c => forall p, call_ptr c = Some p -> is_Some (store st !! p)) cs ->
  length (outcomes cs st) = length cs /\
  Forall (fun r => r <> Undefined) (outcomes cs st).
Proof.
  revert st. induction cs as [|c cs IH]; intros st Hi Ho Hcs.
  - split; [reflexivity | constructor].
  - inversion Hcs as [|? ? Hc Hcs']; subst.
    destruct (exec_live c st Hc Hi Ho) as (Hnf & Hi' & Ho').
    assert (Hcs1 : Forall (fun c' => forall p, call_ptr c' = Some p ->
                     is_Some (store (snd (exec c st)) !! p)) cs).
    { eapply Forall_impl; [exact Hcs'|]. intros c' Hc' p Hp.
      apply exec_is_Some. now apply Hc'. }
    destruct (IH _ Hi' Ho' Hcs1) as [IH1 IH2].
    cbn [outcomes]. destruct (exec c st) as [[[]|what|] st']; cbn [fst snd] in *;
      try congruence.
    all: split; [cbn [length]; now rewrite IH1 | constructor; [discriminate | exact IH2]].
Qed.

(** * Facts about the base class *)

Section DeviceFacts.

Lemma Device_addInputs_cons s v d :
  Device.addInputs (s :: v) d = Device.addInputs v (Device.object (Device.addInput s d)).
Proof. reflexivity. Qed.

Lemma Device_addOutputs_cons s v d :
  Device.addOutputs (s :: v) d
  = Device.addOutputs v (Device.object (Device.addOutput s d)).
Proof. reflexivity. Qed.

Lemma Device_addInputs_take v : forall d,
  is_int (Device.inputAmount d) ->
  0 <= Device.inputAmount d ->
  Device.addInputs v d
  = {| Device.inputs :=
         Device.inputs d
         ++ take (Z.to_nat (Device.inputAmount d - size (Device.inputs d))) v;
       Device.outputs := Device.outputs d;
       Device.inputAmount := Device.inputAmount d;
       Device.outputAmount := Device.outputAmount d |}.
Proof.
  induction v as [|s v IH]; intros d Hint Hn.
  - rewrite take_nil, app_nil_r. destruct d; reflexivity.
  - rewrite Device_addInputs_cons. unfold Device.addInput.
    rewrite to_size_t_nonneg by assumption.
    destruct (Z.ltb_spec (size (Device.inputs d)) (Device.inputAmount d)) as [Hlt|Hge];
      cbn [Device.object].
    + rewrite IH by assumption.
      cbn [Device.inputs Device.outputs Device.inputAmount Device.outputAmount].
      unfold push_back, size in *. rewrite length_app. cbn [length].
      replace (Z.to_nat (Device.inputAmount d - Z.of_nat (length (Device.inputs d))))
        with (S (Z.to_nat (Device.inputAmount d
                           - Z.of_nat (length (Device.inputs d) + 1)))) by lia.
      cbn [take]. now rewrite <- app_assoc.
    + rewrite IH by assumption.
      replace (Z.to_nat (Device.inputAmount d - size (Device.inputs d)))
        with 0%nat by lia.
      reflexivity.
Qed.

Lemma Device_addOutputs_take v : forall d,
  is_int (Device.outputAmount d) ->
  0 <= Device.outputAmount d ->
  Device.addOutputs v d
  = {| Device.inputs := Device.inputs d;
       Device.outputs :=
         Device.outputs d
         ++ take (Z.to_nat (Device.outputAmount d - size (Device.outputs d))) v;
       Device.inputAmount := Device.inputAmount d;
       Device.outputAmount := Device.outputAmount d |}.
Proof.
  induction v as [|s v IH]; intros d Hint Hn.
  - rewrite take_nil, app_nil_r. destruct d; reflexivity.
  - rewrite Device_addOutputs_cons. unfold Device.addOutput.
    rewrite to_size_t_nonneg by assumption.
    destruct (Z.ltb_spec (size (Device.outputs d)) (Device.outputAmount d)) as [Hlt|Hge];
      cbn [Device.object].
    + rewrite IH by assumption.
      cbn [Device.inputs Device.outputs Device.inputAmount Device.outputAmount].
      unfold push_back, size in *. rewrite length_app. cbn [length].
      replace (Z.to_nat (Device.outputAmount d - Z.of_nat (length (Device.outputs d))))
        with (S (Z.to_nat (Device.outputAmount d
                           - Z.of_nat (length (Device.outputs d) + 1)))) by lia.
      cbn [take]. now rewrite <- app_assoc.
    + rewrite IH by assumption.
      replace (Z.to_nat (Device.outputAmount d - size (Device.outputs d)))
        with 0%nat by lia.
      reflexivity.
Qed.

Lemma to_size_t_negative n : is_int n -> n < 0 -> to_size_t n = n + 2 ^ 64.
Proof.
  unfold is_int, to_size_t. intros Hint Hn.
  change (2 ^ 31) with 2147483648 in Hint.
  change (2 ^ 64) with 18446744073709551616.
  symmetry. apply Z.mod_unique with (-1); lia.
Qed.

Lemma Device_addInputs_all v : forall d,
  size (Device.inputs d) + size v <= to_size_t (Device.inputAmount d) ->
  Device.addInputs v d
  = {| Device.inputs := Device.inputs d ++ v;
       Device.outputs := Device.outputs d;
       Device.inputAmount := Device.inputAmount d;
       Device.outputAmount := Device.outputAmount d |}.
Proof.
  induction v as [|s v IH]; intros d Hsz.
  - rewrite app_nil_r. destruct d; reflexivity.
  - rewrite Device_addInputs_cons. unfold Device.addInput.
    unfold size in Hsz. cbn [length] in Hsz.
    rewrite (proj2 (Z.ltb_lt _ _)) by (unfold size; lia). cbn [Device.object].
    rewrite IH.
    + cbn [Device.inputs Device.outputs Device.inputAmount Device.outputAmount].
      unfold push_back. now rewrite <- app_assoc.
    + cbn [Device.inputs Device.inputAmount]. unfold push_back, size.
      rewrite length_app. cbn [length]. lia.
Qed.

End DeviceFacts.

(** X12.  The functions of the base class, for limits that are not
    negative: of the streams offered one after the other, those are attached
    that fit below the limit, in order, and the others are refused; a device
    that is already at or over its limit takes none. *)
Theorem Device_attaches_up_to_the_limit (d : Device.t) (v w : list ptr) :
  is_int (Device.inputAmount d) ->
  is_int (Device.outputAmount d) ->
  0 <= Device.inputAmount d ->
  0 <= Device.outputAmount d ->
  Device.inputs (Device.addInputs v d)
  = Device.inputs d
    ++ take (Z.to_nat (Device.inputAmount d - size (Device.inputs d))) v /\
  Device.outputs (Device.addOutputs w d)
  = Device.outputs d
    ++ take (Z.to_nat (Device.outputAmount d - size (Device.outputs d))) w.
Proof.
  intros Hi Ho Hni Hno.
  rewrite Device_addInputs_take, Device_addOutputs_take by assumption.
  split; reflexivity.
Qed.

(** X13.  The base class with a negative input limit refuses nothing: the
    limit is compared as a [size_t]. *)
Theorem Device_negative_limit_is_none (d : Device.t) (v : list ptr) :
  is_int (Device.inputAmount d) ->
  Device.inputAmount d < 0 ->
  size (Device.inputs d) + size v < 2 ^ 63 ->
  Device.inputs (Device.addInputs v d) = Device.inputs d ++ v.
Proof.
  intros Hint Hn Hsz. rewrite Device_addInputs_all; [reflexivity|].
  rewrite to_size_t_negative by assumption.
  unfold is_int in Hint. change (2 ^ 31) with 2147483648 in Hint.
  change (2 ^ 63) with 9223372036854775808 in Hsz.
  change (2 ^ 64) with 18446744073709551616. lia.
Qed.

(** * Facts about the checks of the test functions *)

Section CheckFacts.

Lemma pos_lt_pow2_digits m : Z.pos m < 2 ^ Zdigits2 (Z.pos m).
Proof.
  rewrite Zdigits2_log2 by lia.
  pose proof (Z.log2_spec (Z.pos m) ltac:(lia)) as [_ H].
  replace (Z.log2 (Z.pos m) + 1) with (Z.succ (Z.log2 (Z.pos m))) by lia.
  exact H.
Qed.

(** The mantissa of a binary64 datum has at most 53 bits. *)
Lemma valid_mantissa_bound s m e :
  valid (S754_finite s m e) = true -> Z.pos m < 2 ^ 53.
Proof.
  intros H. apply bounded_inv in H as [Hc _].
  pose proof (pos_lt_pow2_digits m) as Hd.
  pose proof (Zdigits2_pos (Z.pos m) ltac:(lia)) as Hp.
  assert (Hle : Zdigits2 (Z.pos m) <= 53)
    by (unfold fexp, emin, prec, emax in Hc; lia).
  eapply Z.lt_le_trans; [exact Hd|].
  apply Z.pow_le_mono_r; lia.
Qed.

(** Rounding keeps the sign. *)
Lemma binary_round_aux_sign sx mx ex lx :
  0 <= mx ->
  binary_round_aux prec emax sx mx ex lx = S754_zero sx \/
  binary_round_aux prec emax sx mx ex lx = S754_infinity sx \/
  exists m e, binary_round_aux prec emax sx mx ex lx = S754_finite sx m e.
Proof.
  intros Hm. unfold binary_round_aux.
  pose proof (shr_fexp_m mx ex lx Hm) as [Hm' _].
  destruct (shr_fexp prec emax mx ex lx) as [mrs' e']. cbn [fst snd] in Hm'.
  set (m1 := round_nearest_even (shr_m mrs') (loc_of_shr_record mrs')).
  assert (Hm'0 : 0 <= shr_m mrs') by (rewrite Hm'; apply div_pow2_nonneg; lia).
  assert (Hm1 : m1 = shr_m mrs' \/ m1 = shr_m mrs' + 1)
    by apply round_nearest_even_cases.
  assert (Hm10 : 0 <= m1) by lia.
  pose proof (shr_fexp_m m1 e' loc_Exact Hm10) as [Hm'' _].
  destruct (shr_fexp prec emax m1 e' loc_Exact) as [mrs'' e''].
  cbn [fst snd] in Hm''.
  assert (H0 : 0 <= shr_m mrs'') by (rewrite Hm''; apply div_pow2_nonneg; lia).
  destruct (shr_m mrs'') as [|m|m]; [now left | | lia].
  destruct (e'' <=? emax - prec); [right; right; eauto | right; now left].
Qed.

Lemma binary_round_sign sx mx ex :
  binary_round prec emax sx mx ex = S754_zero sx \/
  binary_round prec emax sx mx ex = S754_infinity sx \/
  exists m e, binary_round prec emax sx mx ex = S754_finite sx m e.
Proof.
  unfold binary_round. destruct (shl_align _ _ _) as [mz ez].
  apply binary_round_aux_sign. lia.
Qed.

(** A difference that is negative before rounding is below every positive
    number after it. *)
Lemma negative_below_positive z e m' e' :
  z < 0 ->
  Cmath.ltb (binary_normalize prec emax z e false) (S754_finite false m' e') = true.
Proof.
  intros Hz. destruct z as [|p|p]; try lia. cbn [binary_normalize].
  destruct (binary_round_sign true p e) as [->|[->|(m & e0 & ->)]]; reflexivity.
Qed.

Lemma shl_align_same m e : shl_align m e e = (m, e).
Proof. unfold shl_align. now rewrite Z.sub_diag. Qed.

Lemma shl_align_lower m e e' :
  e' < e -> fst (shl_align m e e') = (m * 2 ^ Z.to_pos (e - e'))%positive.
Proof.
  intros H. unfold shl_align.
  destruct (e' - e) as [|d|d] eqn:E; try lia. cbn [fst].
  apply Pos2Z.inj. rewrite iter_xO_pow2, Pos2Z.inj_mul, Pos2Z.inj_pow.
  replace (Z.pos (Z.to_pos (e - e'))) with (Z.pos d) by lia. reflexivity.
Qed.

End CheckFacts.

(** X14.  The condition of [Test1] has no lower side: it holds for every
    output whose absolute value is below [15], so [Test1] also passes when
    the sum is too small, or zero. *)
Theorem Test1_passes_below_15 (x : double) :
  valid x = true ->
  Cmath.ltb (Cmath.abs x) (of_Z 15) = true ->
  Test1_check x = true.
Proof.
  intros Hv Hlt. unfold Test1_check.
  change (Cmath.of_float POSSIBLE_ERROR)
    with (S754_finite false 5764607394185216 (-59)).
  change (of_Z 15) with (S754_finite false 8444249301319680 (-49)) in *.
  destruct x as [s|s| |s m e]; try discriminate Hlt.
  - reflexivity.
  - pose proof (valid_mantissa_bound _ _ _ Hv) as Hm.
    change (2 ^ 53) with 9007199254740992 in Hm.
    unfold Cmath.ltb, Cmath.abs, SFltb in Hlt. cbn [SFabs SFcompare] in Hlt.
    unfold Cmath.sub, Cmath.abs. cbn [SFabs SFsub cond_Zopp].
    apply negative_below_positive.
    destruct (Z.compare_spec e (-49)) as [E|E|E]; try discriminate Hlt.
    + subst e. change (Z.min (-49) (-49)) with (-49).
      rewrite !shl_align_same. cbn [fst].
      assert (Hc : (m ?= 8444249301319680)%positive = Lt).
      { change ((m ?= 8444249301319680)%positive)
          with (PosDef.Pos.compare_cont Eq m 8444249301319680).
        destruct (PosDef.Pos.compare_cont Eq m 8444249301319680);
          [discriminate Hlt | reflexivity | discriminate Hlt]. }
      assert (Hz : Z.pos m < 8444249301319680) by exact Hc. lia.
    + rewrite Z.min_l by lia. rewrite shl_align_same. cbn [fst].
      rewrite shl_align_lower by lia. rewrite Pos2Z.inj_mul, Pos2Z.inj_pow.
      assert (Hp : 2 ^ 1 <= 2 ^ Z.pos (Z.to_pos (-49 - e)))
        by (apply Z.pow_le_mono_r; lia).
      change (2 ^ 1) with 2 in Hp.
      assert (Hq : 8444249301319680 * 2
                   <= 8444249301319680 * 2 ^ Z.pos (Z.to_pos (-49 - e)))
        by (apply Z.mul_le_mono_nonneg_l; lia).
      lia.
Qed.

(** X15.  The condition of [Test5] holds for the two zeros and for no other
    double. *)
Theorem Test5_passes_on_zero_only (x : double) :
  Test5_check x = true <-> x = S754_zero false \/ x = S754_zero true.
Proof.
  unfold Test5_check. change (of_Z 0) with (S754_zero false).
  destruct x as [[]|[]| |[] m e]; cbn; split;
    first [ discriminate | intros [H|H]; discriminate H
          | intros _; auto | reflexivity ].
Qed.

(** * Facts about the test functions *)

Section TestFacts.

Variable indeterminate : ptr -> double.

Implicit Types (pr : process) (h : gmap ptr Stream) (p : ptr).

Lemma on_d1_eq {A : Type} (m : M A) pr r st' :
  m {| this := d1 pr; store := heap pr |} = (r, st') ->
  on_d1 m pr
  = (r, {| streamcounter := streamcounter pr; d1 := this st';
           heap := store st'; cout := cout pr |}).
Proof. unfold on_d1. now intros ->. Qed.

Lemma call_setMassFlow_live p m st s :
  store st !! p = Some s ->
  call_setMassFlow p m st
  = (Normal tt, {| this := this st; store := alter (setMassFlow m) p (store st) |}).
Proof. unfold call_setMassFlow. now intros ->. Qed.

Lemma call_getMassFlow_live p st s :
  store st !! p = Some s ->
  call_getMassFlow p st = (Normal (getMassFlow s), st).
Proof. unfold call_getMassFlow. now intros ->. Qed.

(** The address [new] returns manages nothing yet. *)
Lemma fresh_not_managed h : h !! fresh (dom h) = None.
Proof. apply not_elem_of_dom, is_fresh. Qed.

Lemma new_Stream_eq pr :
  streamcounter pr + 1 < 2 ^ 31 ->
  new_Stream indeterminate pr
  = (Normal (fresh (dom (heap pr))),
     {| streamcounter := streamcounter pr + 1; d1 := d1 pr;
        heap := <[fresh (dom (heap pr)) :=
                    Stream_new (indeterminate (fresh (dom (heap pr))))
                               (streamcounter pr + 1)]> (heap pr);
        cout := cout pr |}).
Proof.
  intros H. unfold new_Stream, mbind, P_mbind, P_bind_def, streamcounter_increment.
  rewrite (proj2 (Z.ltb_lt _ _) H). reflexivity.
Qed.

(** Freeing the streams a test function created gives back the store it
    started from. *)
Lemma lookup_foldr_delete (ps : list ptr) h k :
  foldr delete h ps !! k = if decide (k ∈ ps) then None else h !! k.
Proof.
  induction ps as [|p ps IH]; cbn [foldr].
  - rewrite decide_False by (intros H; inversion H). reflexivity.
  - rewrite lookup_delete. destruct (decide (p = k)) as [->|Hne].
    + rewrite decide_True by left. reflexivity.
    + rewrite IH. destruct (decide (k ∈ ps)) as [Hin|Hnin].
      * rewrite decide_True by (now right). reflexivity.
      * rewrite decide_False; [reflexivity|].
        intros Hin. inversion Hin; subst; congruence.
Qed.

Lemma leave_restores (ps : list ptr) h' h :
  (forall k, k ∉ ps -> h' !! k = h !! k) ->
  (forall k, k ∈ ps -> h !! k = None) ->
  foldr delete h' ps = h.
Proof.
  intros Hoff Hon. apply map_eq. intros k. rewrite lookup_foldr_delete.
  destruct (decide (k ∈ ps)); [symmetry; now apply Hon | now apply Hoff].
Qed.

(** Evaluation of a test function, one statement at a time. *)
Ltac proj :=
  cbv beta iota delta
    [d1 heap cout streamcounter this store inputs outputs _inputs_count
     Mixer_new push_back assign_all foldl app getMassFlow setMassFlow
     mass_flow fmap option_fmap option_map].

Ltac enter :=
  cbv beta iota delta
    [caller_d1 streamcounter_assign d1_construct d1 heap cout streamcounter].

Ltac lk :=
  repeat first
    [ rewrite lookup_alter_eq
    | rewrite lookup_alter_ne by congruence
    | rewrite lookup_insert_eq
    | rewrite lookup_insert_ne by congruence ].

Ltac live_lk :=
  repeat (apply List.Forall_cons; [lk; eexists; reflexivity|]);
  apply List.Forall_nil.

(** [new Stream(++streamcounter)]: the address [p] is new. *)
Ltac alloc p F :=
  rewrite new_Stream_eq by (cbn; lia);
  cbv beta iota delta [d1 heap cout streamcounter];
  match goal with
  | |- context [fresh (dom ?h)] =>
      pose proof (fresh_not_managed h) as F;
      set (p := fresh (dom h)) in *;
      repeat (apply lookup_insert_None in F as [F ?])
  end.

Ltac on_lk Hk :=
  repeat (apply elem_of_cons in Hk as [->|Hk]; [assumption|]);
  inversion Hk.

Ltac off_lk Hk :=
  repeat first
    [ rewrite lookup_alter_ne
        by (intros ->; apply Hk; repeat first [left | right])
    | rewrite lookup_insert_ne
        by (intros ->; apply Hk; repeat first [left | right]) ];
  reflexivity.

Lemma Test5_runs pr :
  Test5 indeterminate pr
  = (Normal tt,
     {| streamcounter := 1; d1 := d1 pr; heap := heap pr;
        cout := cout pr ++ ["Test 4 passed"%string] |}).
Proof.
  destruct pr as [sc d h out]. unfold Test5, mbind, P_mbind, P_bind_def.
  enter. alloc p1 F1.
  erewrite on_d1_eq by (apply addOutput_room; reflexivity). proj.
  erewrite on_d1_eq.
  2:{ apply (updateOutputs_returns _ []); proj;
        [reflexivity | discriminate | live_lk]. }
  proj. change (of_size (size [p1])) with one.
  erewrite on_d1_eq by (apply call_getMassFlow_live; proj; lk; reflexivity).
  proj.
  replace (Test5_check (div (sum_flows []) one)) with true
    by (vm_compute; reflexivity).
  unfold cout_line, leave. proj. do 2 f_equal.
  apply leave_restores.
  - intros k Hk. off_lk Hk.
  - intros k Hk. on_lk Hk.
Qed.

Ltac eval_closed f :=
  match goal with
  | |- context [f ?x] =>
      let r := eval vm_compute in (f x) in
      replace (f x) with r by (vm_compute; reflexivity)
  end.

Ltac eval_eqb :=
  match goal with
  | |- context [String.eqb ?a ?b] =>
      let r := eval vm_compute in (String.eqb a b) in
      replace (String.eqb a b) with r by (vm_compute; reflexivity)
  end.

Ltac do_setMassFlow :=
  erewrite on_d1_eq by (eapply call_setMassFlow_live; proj; lk; reflexivity);
  proj.

Ltac do_getMassFlow :=
  erewrite on_d1_eq by (eapply call_getMassFlow_live; proj; lk; reflexivity);
  proj.

Ltac do_addInput :=
  erewrite on_d1_eq
    by (apply addInput_room; proj; [unfold is_int; lia | unfold size; cbn; lia]);
  proj.

Ltac do_addOutput :=
  erewrite on_d1_eq by (apply addOutput_room; reflexivity);
  proj.

Ltac do_updateOutputs fs :=
  erewrite on_d1_eq;
  [ | apply (updateOutputs_returns _ fs); proj;
      [ cbn [flows]; lk; reflexivity | discriminate | live_lk ] ];
  proj;
  match goal with
  | |- context [of_size (size [?o])] => change (of_size (size [o])) with one
  end.

Ltac do_leave :=
  unfold cout_line, leave; proj; do 2 f_equal;
  apply leave_restores;
  [ let k := fresh "k" in let Hk := fresh "Hk" in intros k Hk; off_lk Hk
  | let k := fresh "k" in let Hk := fresh "Hk" in intros k Hk; on_lk Hk ].

Lemma Test1_runs pr :
  Test1 indeterminate pr
  = (Normal tt,
     {| streamcounter := 3; d1 := d1 pr; heap := heap pr;
        cout := cout pr ++ ["Test 1 passed"%string] |}).
Proof.
  destruct pr as [sc d h out]. unfold Test1, mbind, P_mbind, P_bind_def.
  enter. alloc p1 F1. alloc p2 F2. alloc p3 F3.
  do_setMassFlow. do_setMassFlow.
  do_addInput. do_addInput. do_addOutput.
  do_updateOutputs [of_Z 10; of_Z 5].
  do_getMassFlow. eval_closed Test1_check.
  do_leave.
Qed.

Lemma Test4_runs pr :
  Test4 indeterminate pr
  = (Normal tt,
     {| streamcounter := 3; d1 := d1 pr; heap := heap pr;
        cout := cout pr ++ ["Test 5 passed"%string] |}).
Proof.
  destruct pr as [sc d h out]. unfold Test4, mbind, P_mbind, P_bind_def.
  enter. alloc p1 F1. alloc p2 F2. alloc p3 F3.
  do_setMassFlow. do_setMassFlow.
  do_addInput. do_addInput. do_addOutput.
  do_updateOutputs [of_Z 10; of_Z (-5)].
  do_getMassFlow. eval_closed Test4_check.
  do_leave.
Qed.

Lemma Test6_runs pr :
  Test6 indeterminate pr
  = (Normal tt,
     {| streamcounter := 3; d1 := d1 pr; heap := heap pr;
        cout := cout pr ++ ["Test 6 passed"%string] |}).
Proof.
  destruct pr as [sc d h out]. unfold Test6, mbind, P_mbind, P_bind_def.
  enter. alloc p1 F1. alloc p2 F2. alloc p3 F3.
  do_setMassFlow. do_setMassFlow.
  do_addInput. do_addInput. do_addOutput.
  do_updateOutputs [of_Z 10; of_Z 5].
  do_getMassFlow. eval_closed Test6_first_check. cbv iota.
  do_setMassFlow.
  do_updateOutputs [of_Z 20; of_Z 5].
  do_getMassFlow. eval_closed Test6_second_check.
  do_leave.
Qed.

Lemma Test2_runs pr :
  Test2 indeterminate pr
  = (Normal tt,
     {| streamcounter := 4; d1 := d1 pr; heap := heap pr;
        cout := cout pr ++ ["Test 2 passed"%string] |}).
Proof.
  destruct pr as [sc d h out]. unfold Test2, mbind, P_mbind, P_bind_def.
  enter. alloc p1 F1. alloc p2 F2. alloc p3 F3. alloc p4 F4.
  do_setMassFlow. do_setMassFlow.
  do_addInput. do_addInput. do_addOutput.
  unfold try_catch_string.
  erewrite on_d1_eq by (apply addOutput_full; reflexivity). proj.
  unfold CapacityExceeded. eval_eqb.
  do_leave.
Qed.

Lemma Test3_runs pr :
  Test3 indeterminate pr
  = (Normal tt,
     {| streamcounter := 4; d1 := d1 pr; heap := heap pr;
        cout := cout pr ++ ["Test 3 passed"%string] |}).
Proof.
  destruct pr as [sc d h out]. unfold Test3, mbind, P_mbind, P_bind_def.
  enter. alloc p1 F1. alloc p2 F2. alloc p3 F3. alloc p4 F4.
  do_setMassFlow. do_setMassFlow.
  do_addInput. do_addInput. do_addOutput.
  unfold try_catch_string.
  erewrite on_d1_eq
    by (apply addInput_full; proj; [unfold is_int; lia | reflexivity]).
  proj. unfold CapacityExceeded. eval_eqb.
  do_leave.
Qed.

Lemma Test7_runs pr :
  Test7 indeterminate pr
  = (Normal tt,
     {| streamcounter := 2; d1 := d1 pr; heap := heap pr;
        cout := cout pr ++ ["Test 7 passed"%string] |}).
Proof.
  destruct pr as [sc d h out]. unfold Test7, mbind, P_mbind, P_bind_def.
  enter. alloc p1 F1. alloc p2 F2.
  do_setMassFlow. do_setMassFlow.
  do_addInput. do_addInput.
  unfold try_catch_string.
  erewrite on_d1_eq by (apply updateOutputs_throws; proj; [live_lk | reflexivity]).
  proj. unfold MissingOutput. eval_eqb.
  do_leave.
Qed.

(** X16.  [tests()], run in any state of the process: all seven test
    functions return, the lines written are the seven "passed" lines ([Test4]
    and [Test5] under each other's number), every stream the tests created
    is freed again, and [streamcounter] is left at [2]. *)
Theorem the_tests_all_pass pr :
  tests indeterminate pr
  = (Normal tt,
     {| streamcounter := 2; d1 := d1 pr; heap := heap pr;
        cout := cout pr
                ++ ["Test 1 passed"; "Test 2 passed"; "Test 3 passed";
                    "Test 5 passed"; "Test 4 passed"; "Test 6 passed";
                    "Test 7 passed"]%string |}).
Proof.
  unfold tests, mbind, P_mbind, P_bind_def.
  rewrite Test1_runs, Test2_runs, Test3_runs, Test4_runs, Test5_runs,
    Test6_runs, Test7_runs.
  cbn [d1 heap cout streamcounter]. rewrite <- !app_assoc. reflexivity.
Qed.

End TestFacts.

(** * The further properties at concrete scenarios *)

(** [Test1]: the output gets [(0 + 10 + 5) / 1]. *)
Lemma Test1_output_gets_the_share :
  flows (store Test1_state) (inputs (this Test1_state)) = Some [of_Z 10; of_Z 5] /\
  outputs (this Test1_state) <> [] /\
  live (store Test1_state) (outputs (this Test1_state)) /\
  exists st',
    updateOutputs Test1_state = (Normal tt, st') /\
    forall o, o ∈ outputs (this Test1_state) ->
      flow st' o = Some (div (sum_flows [of_Z 10; of_Z 5])
                             (of_size (size (outputs (this Test1_state))))).
Proof.
  assert (H1 : flows (store Test1_state) (inputs (this Test1_state))
               = Some [of_Z 10; of_Z 5]) by by_evaluation.
  assert (H2 : outputs (this Test1_state) <> []) by (vm_compute; discriminate).
  assert (H3 : live (store Test1_state) (outputs (this Test1_state)))
    by live_by_evaluation.
  repeat (split; [assumption|]).
  exact (every_output_gets_the_share Test1_state [of_Z 10; of_Z 5] H1 H2 H3).
Defined.

(** [Test7]: the throw of [updateOutputs()] leaves the state as it was. *)
Lemma Test7_throw_leaves_no_trace :
  exec UpdateOutputs Test7_state = (Throw MissingOutput, Test7_state) /\
  Test7_state = Test7_state /\
  ((exists s, UpdateOutputs = AddInput s) /\
     MissingOutput = "Too much inputs"%string /\
     size (inputs (this Test7_state)) = to_size_t (_inputs_count (this Test7_state))
   \/ (exists s, UpdateOutputs = AddOutput s) /\
     MissingOutput = "Too much outputs"%string /\
     size (outputs (this Test7_state)) = 1
   \/ UpdateOutputs = UpdateOutputs /\
     MissingOutput = "Should set outputs before update"%string /\
     outputs (this Test7_state) = []).
Proof.
  assert (H1 : exec UpdateOutputs Test7_state = (Throw MissingOutput, Test7_state))
    by by_evaluation.
  split; [assumption|].
  exact (a_throw_leaves_no_trace UpdateOutputs Test7_state Test7_state
           MissingOutput H1).
Defined.

(** Three streams offered as inputs and two as outputs to [Mixer(2)]. *)
Lemma two_of_three_are_attached :
  is_int 2 /\
  0 <= 2 /\
  inputs (this (run (map AddInput [1; 2; 3]%positive) (fresh_mixer 2 four_streams)))
  = [1; 2]%positive /\
  outputs (this (run (map AddOutput [3; 4]%positive) (fresh_mixer 2 four_streams)))
  = [3%positive].
Proof.
  assert (H1 : is_int 2) by (unfold is_int; lia).
  assert (H2 : 0 <= 2) by lia.
  repeat (split; [assumption|]).
  exact (the_first_n_are_attached 2 four_streams [1; 2; 3]%positive
           [3; 4]%positive H1 H2).
Defined.

(** Three streams offered as inputs to [Mixer(-1)]. *)
Lemma minus_one_takes_all_three :
  is_int (-1) /\
  -1 < 0 /\
  size [1; 2; 3]%positive < 2 ^ 63 /\
  inputs (this (run (map AddInput [1; 2; 3]%positive)
                  (fresh_mixer (-1) three_streams)))
  = [1; 2; 3]%positive.
Proof.
  assert (H1 : is_int (-1)) by (unfold is_int; lia).
  assert (H2 : -1 < 0) by lia.
  assert (H3 : size [1; 2; 3]%positive < 2 ^ 63) by (vm_compute; reflexivity).
  repeat (split; [assumption|]).
  exact (a_negative_capacity_is_no_limit (-1) three_streams [1; 2; 3]%positive
           H1 H2 H3).
Defined.

(** Stream 1 holding [10] is the first input and the output, stream 2
    holding [5] the second input: [15] after one update, [20] after two. *)
Lemma fed_back_10_and_5 :
  let st := run [SetMassFlow 1 (of_Z 10); SetMassFlow 2 (of_Z 5);
                 AddInput 1; AddInput 2; AddOutput 1]
              (fresh_mixer 2 three_streams) in
  inputs (this st) = [1; 2]%positive /\
  outputs (this st) = [1%positive] /\
  1%positive <> 2%positive /\
  flow st 1 = Some (of_Z 10) /\
  flow st 2 = Some (of_Z 5) /\
  valid (of_Z 10) = true /\
  valid (of_Z 5) = true /\
  exists st1 st2,
    updateOutputs st = (Normal tt, st1) /\
    updateOutputs st1 = (Normal tt, st2) /\
    flow st1 1 = Some (of_Z 15) /\
    flow st2 1 = Some (of_Z 20).
Proof.
  intros st.
  assert (H1 : inputs (this st) = [1; 2]%positive) by by_evaluation.
  assert (H2 : outputs (this st) = [1%positive]) by by_evaluation.
  assert (H3 : 1%positive <> 2%positive) by discriminate.
  assert (H4 : flow st 1 = Some (of_Z 10)) by by_evaluation.
  assert (H5 : flow st 2 = Some (of_Z 5)) by by_evaluation.
  assert (H6 : valid (of_Z 10) = true) by by_evaluation.
  assert (H7 : valid (of_Z 5) = true) by by_evaluation.
  repeat (split; [assumption|]).
  exact (an_output_fed_back_accumulates st 1 2 (of_Z 10) (of_Z 5)
           H1 H2 H3 H4 H5 H6 H7).
Defined.

(** The calls of [Test6], then a refused input and a refused output. *)
Lemma Test6_calls_are_defined :
  let cs := Test1_setup
            ++ [UpdateOutputs; SetMassFlow 1 (of_Z 20); UpdateOutputs;
                AddInput 3; AddOutput 2] in
  let st := fresh_mixer 2 three_streams in
  live (store st) (inputs (this st)) /\
  live (store st) (outputs (this st)) /\
  Forall (fun c => forall p, call_ptr c = Some p -> is_Some (store st !! p)) cs /\
  length (outcomes cs st) = length cs /\
  Forall (fun r => r <> Undefined) (outcomes cs st).
Proof.
  intros cs st.
  assert (H1 : live (store st) (inputs (this st))) by apply List.Forall_nil.
  assert (H2 : live (store st) (outputs (this st))) by apply List.Forall_nil.
  assert (H3 : Forall (fun c => forall p, call_ptr c = Some p ->
                         is_Some (store st !! p)) cs).
  { repeat (apply List.Forall_cons;
      [ let p := fresh "p" in let Hp := fresh "Hp" in
        intros p Hp;
        first [ discriminate Hp | injection Hp as <-; by_evaluation ] |]).
    apply List.Forall_nil. }
  repeat (split; [assumption|]).
  exact (live_pointers_are_enough cs st H1 H2 H3).
Defined.

(** A device with limits 2 and 1. *)
Lemma Device_limits_2_and_1 :
  let d := {| Device.inputs := []; Device.outputs := [];
              Device.inputAmount := 2; Device.outputAmount := 1 |} in
  is_int (Device.inputAmount d) /\
  is_int (Device.outputAmount d) /\
  0 <= Device.inputAmount d /\
  0 <= Device.outputAmount d /\
  Device.inputs (Device.addInputs [1; 2; 3]%positive d) = [1; 2]%positive /\
  Device.outputs (Device.addOutputs [3; 4]%positive d) = [3%positive].
Proof.
  intros d.
  assert (H1 : is_int (Device.inputAmount d)) by (unfold is_int; cbn; lia).
  assert (H2 : is_int (Device.outputAmount d)) by (unfold is_int; cbn; lia).
  assert (H3 : 0 <= Device.inputAmount d) by (cbn; lia).
  assert (H4 : 0 <= Device.outputAmount d) by (cbn; lia).
  repeat (split; [assumption|]).
  exact (Device_attaches_up_to_the_limit d [1; 2; 3]%positive [3; 4]%positive
           H1 H2 H3 H4).
Defined.

(** A device with input limit [-1]. *)
Lemma Device_limit_minus_one :
  let d := {| Device.inputs := []; Device.outputs := [];
              Device.inputAmount := -1; Device.outputAmount := 0 |} in
  is_int (Device.inputAmount d) /\
  Device.inputAmount d < 0 /\
  size (Device.inputs d) + size [1; 2; 3]%positive < 2 ^ 63 /\
  Device.inputs (Device.addInputs [1; 2; 3]%positive d) = [1; 2; 3]%positive.
Proof.
  intros d.
  assert (H1 : is_int (Device.inputAmount d)) by (unfold is_int; cbn; lia).
  assert (H2 : Device.inputAmount d < 0) by (cbn; lia).
  assert (H3 : size (Device.inputs d) + size [1; 2; 3]%positive < 2 ^ 63)
    by (vm_compute; reflexivity).
  repeat (split; [assumption|]).
  exact (Device_negative_limit_is_none d [1; 2; 3]%positive H1 H2 H3).
Defined.

(** An output of [5] where [15] is expected passes the condition of
    [Test1]. *)
Lemma Test1_passes_on_5 :
  valid (of_Z 5) = true /\
  Cmath.ltb (Cmath.abs (of_Z 5)) (of_Z 15) = true /\
  Test1_check (of_Z 5) = true.
Proof.
  assert (H1 : valid (of_Z 5) = true) by by_evaluation.
  assert (H2 : Cmath.ltb (Cmath.abs (of_Z 5)) (of_Z 15) = true) by by_evaluation.
  repeat (split; [assumption|]).
  exact (Test1_passes_below_15 (of_Z 5) H1 H2).
Defined.

(** Streams 1 and 2 holding [10] and [5] enter the first mixer, its output
    3 and stream 4 holding [2] enter the second, whose output is 5. *)
Lemma series_10_5_and_2 :
  let sigma := store (run [SetMassFlow 1 (of_Z 10); SetMassFlow 2 (of_Z 5);
                           SetMassFlow 4 (of_Z 2)]
                        (fresh_mixer 2 (<[5%positive := Stream_new S754_nan 5]>
                                          four_streams))) in
  let A := {| inputs := [1; 2]%positive; outputs := [3%positive];
              _inputs_count := 2 |} in
  let B := {| inputs := [3; 4]%positive; outputs := [5%positive];
              _inputs_count := 2 |} in
  inputs A = [1; 2]%positive /\
  outputs A = [3%positive] /\
  inputs B = [3; 4]%positive /\
  outputs B = [5%positive] /\
  3%positive <> 4%positive /\
  getMassFlow <$> sigma !! 1%positive = Some (of_Z 10) /\
  getMassFlow <$> sigma !! 2%positive = Some (of_Z 5) /\
  getMassFlow <$> sigma !! 4%positive = Some (of_Z 2) /\
  is_Some (sigma !! 3%positive) /\
  is_Some (sigma !! 5%positive) /\
  valid (of_Z 10) = true /\
  valid (of_Z 5) = true /\
  valid (of_Z 2) = true /\
  exists st1 st2,
    updateOutputs {| this := A; store := sigma |} = (Normal tt, st1) /\
    this st1 = A /\
    updateOutputs {| this := B; store := store st1 |} = (Normal tt, st2) /\
    flow st1 3 = Some (of_Z 15) /\
    flow st2 5 = Some (of_Z 17).
Proof.
  intros sigma A B.
  assert (H1 : inputs A = [1; 2]%positive) by reflexivity.
  assert (H2 : outputs A = [3%positive]) by reflexivity.
  assert (H3 : inputs B = [3; 4]%positive) by reflexivity.
  assert (H4 : outputs B = [5%positive]) by reflexivity.
  assert (H5 : 3%positive <> 4%positive) by discriminate.
  assert (H6 : getMassFlow <$> sigma !! 1%positive = Some (of_Z 10)) by by_evaluation.
  assert (H7 : getMassFlow <$> sigma !! 2%positive = Some (of_Z 5)) by by_evaluation.
  assert (H8 : getMassFlow <$> sigma !! 4%positive = Some (of_Z 2)) by by_evaluation.
  assert (H9 : is_Some (sigma !! 3%positive)) by by_evaluation.
  assert (H10 : is_Some (sigma !! 5%positive)) by by_evaluation.
  assert (H11 : valid (of_Z 10) = true) by by_evaluation.
  assert (H12 : valid (of_Z 5) = true) by by_evaluation.
  assert (H13 : valid (of_Z 2) = true) by by_evaluation.
  repeat (split; [assumption|]).
  exact (mixers_in_series sigma A B 1 2 4 3 5 (of_Z 10) (of_Z 5) (of_Z 2)
           H1 H2 H3 H4 H5 H6 H7 H8 H9 H10 H11 H12 H13).
Defined.
